(** * hstream: the reactive reconciliation engine of [hstream.py]

    A shallow embedding of [src/hstream/hstream.py]: the per-visitor shelves
    (component records and the refresh queue), the path resolution of
    [get_app_db_path], the user-script rerun of [run_user_script] with the
    keyed diff that follows it, the request middleware and the four route
    handlers.

    Conventions.
    - A Python [dict]/[OrderedDict] is an insertion-ordered association list
      ([od_get], [od_set]); a [set] is a [gset string].
    - A shelf that does not exist yet and a shelf with no entry behave the
      same under every operation of the source (each read goes through
      [app_db.get(key, default)]), so the shelves are a finite map from path
      to [Shelf] read with the empty shelf as default.
    - A function that can raise returns an [Outcome]: [Raise] carries the
      state at the point of the raise, because the writes made before it
      stay on disk.
    - Attribute values are strings, compared with [=] as Python's [==].
    - The storage is taken to be usable: a [mkdir] or a [shelve.open] that
      fails is not modelled. *)

From stdpp Require Import base decidable option list strings gmap.

(* [set_solver] clears hypotheses by name as it goes; the notes it prints
   when one is already gone carry no information. *)
Set Warnings "-clear-no-such-hyp".

Open Scope string_scope.

(** ** Python values used by the source *)

Abbreviation OrderedDict V := (list (string * V)).

(** [d.get(k)] / [d[k]]: the first (only) entry under [k]. *)
Fixpoint od_get {V} (d : OrderedDict V) (k : string) : option V :=
  match d with
  | [] => None
  | (k', v) :: d' => if decide (k' = k) then Some v else od_get d' k
  end.

(** [d[k] = v]: overwrite in place, or append at the end. *)
Fixpoint od_set {V} (k : string) (v : V) (d : OrderedDict V) : OrderedDict V :=
  match d with
  | [] => [(k, v)]
  | (k', v') :: d' =>
      if decide (k' = k) then (k, v) :: d' else (k', v') :: od_set k v d'
  end.

(** [del d[k]] (used to describe the removal of a record). *)
Definition od_del {V} (k : string) (d : OrderedDict V) : OrderedDict V :=
  filter (λ kv, kv.1 ≠ k) d.

(** [list(d)]: the keys in insertion order. *)
Definition od_keys {V} (d : OrderedDict V) : list string := d.*1.

(** [d.keys()] as the set-like view that [==] compares. *)
Definition keys_view {V} (d : OrderedDict V) : gset string :=
  list_to_set (od_keys d).

(** [p.startswith(q)] *)
Fixpoint startswith (q p : string) : bool :=
  match q, p with
  | EmptyString, _ => true
  | String a q', String b p' => if decide (a = b) then startswith q' p' else false
  | String _ _, EmptyString => false
  end.

(** [sub in s] on strings: [sub] occurs in [s]. *)
Fixpoint py_in (sub s : string) : bool :=
  startswith sub s ||
  match s with
  | EmptyString => false
  | String _ s' => py_in sub s'
  end.

(** Truthiness of a string: non-empty. *)
Definition truthy (s : string) : bool :=
  match s with EmptyString => false | _ => true end.

(** [a / b] of [pathlib], rendered by [str]: an absolute right operand
    replaces the left one.  Normalisation of dots and doubled slashes is not
    modelled; no claim depends on it. *)
Definition path_join (a b : string) : string :=
  if startswith "/" b then b else a +:+ "/" +:+ b.

(** Letters and digits. *)
Definition is_alnum (c : Ascii.ascii) : bool :=
  let n := Ascii.nat_of_ascii c in
  (Nat.leb 48 n && Nat.leb n 57) || (Nat.leb 65 n && Nat.leb n 90)
  || (Nat.leb 97 n && Nat.leb n 122).

Fixpoint string_forallb (f : Ascii.ascii → bool) (s : string) : bool :=
  match s with
  | EmptyString => true
  | String c s' => f c && string_forallb f s'
  end.

(** An identity that is one path component as it stands and that a
    double-quoted literal reads back unchanged: not empty, letters and
    digits only.  The identities the middleware draws are of this kind.
    On such identities [path_join] is what [pathlib] computes and the
    literal of [compile_user_code] holds the path itself. *)
Definition plain_id (id : string) : bool :=
  truthy id && string_forallb is_alnum id.

(** A directory name with nothing in it that a double-quoted literal would
    alter: letters, digits, and the characters [/ _ - .] *)
Definition plain_path (p : string) : bool :=
  string_forallb
    (λ c, is_alnum c
          || bool_decide (Ascii.nat_of_ascii c ∈ [47; 95; 45; 46])) p.

(** ** Data model *)

(** One component record: attribute name to value, in insertion order. *)
Abbreviation Record_ := (OrderedDict string).
Abbreviation Components := (OrderedDict (OrderedDict string)).

(** One visitor's shelf: the entries ["components"] and
    ["update_required"], each possibly not written yet. *)
Record Shelf := mkShelf {
  components : option Components;
  update_required : option (gset string)
}.

Definition empty_shelf : Shelf := mkShelf None None.

(** The process: the two ambient globals the path is resolved from, the
    rerun flag of the application object, and the shelves on disk. *)
Record App := mkApp {
  builtins_hs_user_app_db_path : option string;
  context_hs_user_app_db_path : option string;
  _queue_user_script_rerun : bool;
  shelves : gmap string Shelf
}.

Inductive exn := KeyError | AssertionError | AttributeError | ScriptError.

Inductive Outcome (A : Type) :=
  | Ok (a : A) (st : App)
  | Raise (e : exn) (st : App).
Arguments Ok {A} a st.
Arguments Raise {A} e st.

(** A computation of the source: it reads and writes the process state and
    may raise. *)
Definition M (A : Type) : Type := App → Outcome A.

Definition ret {A} (a : A) : M A := λ st, Ok a st.

Definition raise {A} (e : exn) : M A := λ st, Raise e st.

Definition bind {A B} (m : M A) (f : A → M B) : M B :=
  λ st, match m st with
        | Ok a st' => f a st'
        | Raise e st' => Raise e st'
        end.

(** A store operation that cannot fail, as a computation. *)
Definition exec (f : App → App) : M unit := λ st, Ok tt (f st).

(** A read of the state. *)
Definition gets {A} (f : App → A) : M A := λ st, Ok (f st) st.

Notation "'do' x <- m ; k" := (bind m (λ x, k))
  (at level 10, x name, m at level 100, k at level 200, only parsing).
Notation "'do_' m ; k" := (bind m (λ _, k))
  (at level 10, m at level 100, k at level 200, only parsing).

Definition final_state {A} (m : Outcome A) : App :=
  match m with Ok _ st => st | Raise _ st => st end.

Definition raises {A} (m : Outcome A) : option exn :=
  match m with Ok _ _ => None | Raise e _ => Some e end.

Definition response_of {A} (m : Outcome A) : option A :=
  match m with Ok a _ => Some a | Raise _ _ => None end.

(** What the user script did in one execution.  The script is text that is
    compiled and executed; it either does not compile, or runs and makes
    its component declarations in order, then returns or raises. *)
Inductive ScriptRun :=
  | DoesNotCompile
  | Ran (declared : list (string * Record_)) (raised : bool).

(** The sentinel of a full page reload. *)
Definition FULL_PAGE : string := "_full_page".
Definition CURRENT_VALUE : string := "current_value".

Inductive Route :=
  | GetRoot
  | GetUpdate
  | GetLabel (component_key : string)
  | PostValueChanged (component_key : string) (form query : option string)
  | OtherPath.

(** A request: the [hs_user_id] cookie if any, the outcome of
    [str(randint(100000, 1000000))] should an identity be minted, and the
    route the URL path selects.  [GetRoot] is the path [/] as the page is
    asked for; a request to [/] with another method than [GET] is not among
    the routes modelled. *)
Record Request := mkRequest {
  cookie_hs_user_id : option string;
  minted_id : string;
  route : Route
}.

Inductive Response :=
  | HXRefresh
  | HXTrigger (triggers : gset string)
  | MainPage (page : Components)
  | Label (label : string) (retarget_nav : bool)
  | Success
  | NotFound.

(** ** Sample data

    The values the sample runs at the end of the file are stated on.  The
    marker [hs_html] stands in for the value of [HS_HTML_CONSTANT]. *)

Module Sample.

Definition dir : string := "/srv/app".
Definition HS : string := "hs_html".
Definition path_111 : string := "/srv/app/hs_data/111".
Definition path_222 : string := "/srv/app/hs_data/222".

Definition text_a (label value : string) : Record_ :=
  [("component_key", "a"); ("component_type", "Text"); ("label", label);
   ("current_value", value)].

Definition text_b (label : string) : Record_ :=
  [("component_key", "b"); ("component_type", "Text"); ("label", label)].

(** A record written by the HTML-building helpers. *)
Definition html_record (markup : string) : Record_ :=
  [("component_key", "hs_html_0"); ("label", markup)].

Definition one_a : Components := [("a", text_a "x" "1")].
Definition a_relabelled : Components := [("a", text_a "y" "1")].
Definition a_revalued : Components := [("a", text_a "x" "2")].
Definition a_then_b : Components := [("a", text_a "x" "1"); ("b", text_b "p")].
Definition a_without_label : Components :=
  [("a", [("component_key", "a"); ("component_type", "Text")])].
Definition a_with_html : Components :=
  [("a", text_a "x" "1"); ("hs_html_0", html_record "<form>")].
Definition sentinel_x : Components := [("_full_page", [("label", "x")])].
Definition sentinel_y : Components := [("_full_page", [("label", "y")])].

(** The process while a request of visitor 111 is served: one shelf, with
    component [a] stored and the given queue. *)
Definition serving (flag : bool) (queue : gset string) : App :=
  mkApp None (Some path_111) flag
        {[ path_111 := mkShelf (Some one_a) (Some queue) ]}.

(** The process before any request. *)
Definition fresh : App := mkApp None None true ∅.

(** A script that declares [b] and then raises. *)
Definition failing_script (_ : Components) : ScriptRun :=
  Ran [("b", text_b "p")] true.

(** A script that declares [a] with the value the visitor entered. *)
Definition echo_script (cs : Components) : ScriptRun :=
  Ran [("a", text_a "x" (default "1" (od_get cs "a" ≫= λ r, od_get r "current_value")))]
      false.

Definition value_change_111 : Request :=
  mkRequest (Some "111") "654321" (PostValueChanged "a" (Some "2") None).

Definition poll_222 : Request := mkRequest (Some "222") "123456" GetUpdate.

(** An ordinary component whose key happens to contain the marker. *)
Definition box (label : string) : Record_ :=
  [("component_key", "my_hs_html_box"); ("component_type", "Text");
   ("label", label)].
Definition a_with_box : Components :=
  [("a", text_a "x" "1"); ("my_hs_html_box", box "x")].
Definition box_x : Components := [("my_hs_html_box", box "x")].
Definition box_y : Components := [("my_hs_html_box", box "y")].

Definition value_change_222 : Request :=
  mkRequest (Some "222") "123456" (PostValueChanged "a" (Some "2") None).

Definition value_change_zzz_111 : Request :=
  mkRequest (Some "111") "654321" (PostValueChanged "zzz" (Some "2") None).

Definition b_then_a : Components := [("b", text_b "p"); ("a", text_a "x" "1")].

(** The process after a script run for visitor 111: the path of 111 is
    left in [builtins]. *)
Definition after_run_111 (queue : gset string) : App :=
  mkApp (Some path_111) (Some path_111) false
        {[ path_111 := mkShelf (Some one_a) (Some queue) ]}.

Definition root_111 : Request := mkRequest (Some "111") "654321" GetRoot.
Definition root_222 : Request := mkRequest (Some "222") "123456" GetRoot.

End Sample.

(** ** The application *)

Section Hyperstream.

Set Default Proof Using "Type".

(** [self.path_to_usesr_directory]: the working directory of the process. *)
Variable path_to_usesr_directory : string.

(** [HS_HTML_CONSTANT] is imported from [hstag.py], which is not part of the
    sources at hand: the marker that the keys of the records written by the
    HTML-building helpers contain.  Its value is left open. *)
Variable HS_HTML_CONSTANT : string.

(** The user script at [self.path_to_user_script], as the function from the
    component records it can read when it starts to what it does. *)
Variable user_script : Components → ScriptRun.

Definition hs_data_path (name : string) : string :=
  path_join (path_join path_to_usesr_directory "hs_data") name.

(** [get_app_db_path]: the path the script injected into [builtins] if there
    is one, else the path of the request context, else the common
    [main.db].  The [mkdir] of the parent directory is not modelled: the
    shelves are addressed by path alone, and the storage is taken to be
    usable (a [mkdir] or a [shelve.open] that fails would raise out of the
    request at this point). *)
Definition get_app_db_path (st : App) : string :=
  let from_context :=
    default (hs_data_path "main.db") (context_hs_user_app_db_path st) in
  match builtins_hs_user_app_db_path st with
  | Some hs_user_app_db_path =>
      if truthy hs_user_app_db_path then hs_data_path hs_user_app_db_path
      else from_context
  | None => from_context
  end.

(** [shelve.open(path)] for reading. *)
Definition shelf_at (path : string) (st : App) : Shelf :=
  default empty_shelf (shelves st !! path).

(** [with shelve.open(self.get_app_db_path()) as app_db: ...] for a body
    that rewrites entries of the shelf. *)
Definition with_app_db (body : Shelf → Shelf) (st : App) : App :=
  let path := get_app_db_path st in
  mkApp (builtins_hs_user_app_db_path st) (context_hs_user_app_db_path st)
        (_queue_user_script_rerun st)
        (<[path := body (shelf_at path st)]> (shelves st)).

Definition get_components (st : App) : Components :=
  default [] (components (shelf_at (get_app_db_path st) st)).

Definition write_components (cs : Components) (st : App) : App :=
  with_app_db (λ app_db, mkShelf (Some cs) (update_required app_db)) st.

Definition clear_components (st : App) : App :=
  with_app_db (λ app_db, mkShelf (Some []) (update_required app_db)) st.

Definition schedule_component_refresh (component_name : string) (st : App) : App :=
  with_app_db
    (λ app_db,
       mkShelf (components app_db)
               (Some (default ∅ (update_required app_db) ∪ {[component_name]})))
    st.

(** [clear_component_refresh_queue(all_component=True)] *)
Definition clear_component_refresh_queue_all (st : App) : App :=
  with_app_db (λ app_db, mkShelf (components app_db) (Some ∅)) st.

(** [clear_component_refresh_queue(component=c)] *)
Definition clear_component_refresh_queue (component : string) (st : App) : App :=
  with_app_db
    (λ app_db,
       mkShelf (components app_db)
               (Some (default ∅ (update_required app_db) ∖ {[component]})))
    st.

Definition get_component_refresh_queue (st : App) : gset string :=
  default ∅ (update_required (shelf_at (get_app_db_path st) st)).

(** *** The user script *)

(** Modelled from the spec: the component API of [components.py] is not part
    of the sources at hand.  A declaration registers the record under its
    key in the session's components, overwriting a prior record under the
    same key and leaving the other keys alone (spec 4.2). *)
Definition declare (key : string) (record : Record_) (st : App) : App :=
  write_components (od_set key record (get_components st)) st.

Definition set_builtins (p : string) (st : App) : App :=
  mkApp (Some p) (context_hs_user_app_db_path st)
        (_queue_user_script_rerun st) (shelves st).

Definition set_context (p : string) (st : App) : App :=
  mkApp (builtins_hs_user_app_db_path st) (Some p)
        (_queue_user_script_rerun st) (shelves st).

Definition set_queue_user_script_rerun (b : bool) (st : App) : App :=
  mkApp (builtins_hs_user_app_db_path st) (context_hs_user_app_db_path st)
        b (shelves st).

(** [compile_user_code]: the flag is cleared first; the text run is the
    script behind two prepended lines, the first of which stores the
    context's path (or ['error']) in [builtins].  The script file is taken
    to exist and to be readable.  The path is pasted between double quotes
    into the text; the model stores it as it is, which is what the literal
    reads back for a path without quote, backslash or line break (see
    [plain_id], [plain_path]); the theorems that depend on which shelf the
    script writes carry this as a hypothesis. *)
Definition compile_user_code : M unit := λ st,
  let st := set_queue_user_script_rerun false st in
  let st_exec :=
    set_builtins (default "error" (context_hs_user_app_db_path st)) st in
  match user_script (get_components st_exec) with
  | DoesNotCompile => Raise ScriptError st
  | Ran declared raised =>
      let st := foldl (λ st d, declare d.1 d.2 st) st_exec declared in
      if raised then Raise ScriptError st else Ok tt st
  end.

(** *** The diff of [run_user_script] *)

(** The [filter(lambda component: HS_HTML_CONSTANT not in component[0], ...)]
    of the two snapshots. *)
Definition strip_html (cs : Components) : Components :=
  filter (λ component, py_in HS_HTML_CONSTANT component.1 = false) cs.

(** [filter(lambda attr: attr not in ["current_value"], attr_before)] *)
Definition component_attr_to_trackchanges (attr_before : Record_) : list string :=
  filter (λ attr, attr ≠ CURRENT_VALUE) (od_keys attr_before).

(** The inner loop over the tracked attributes of one key. *)
Fixpoint track_attrs (key_before : string) (attr_before attr_next : Record_)
    (attrs : list string) : M unit :=
  match attrs with
  | [] => ret tt
  | attr_to_track :: attrs =>
      match od_get attr_before attr_to_track, od_get attr_next attr_to_track with
      | Some v_before, Some v_next =>
          do_ (if decide (v_before = v_next) then ret tt
               else exec (schedule_component_refresh key_before));
          track_attrs key_before attr_before attr_next attrs
      | _, _ => raise KeyError
      end
  end.

(** The outer loop over the items of the snapshot taken before the run. *)
Fixpoint track_components (items : Components) (proposed_components_state : Components)
    : M unit :=
  match items with
  | [] => ret tt
  | (key_before, attr_before) :: items =>
      match od_get proposed_components_state key_before with
      | Some attr_next =>
          do_ track_attrs key_before attr_before attr_next
                (component_attr_to_trackchanges attr_before);
          track_components items proposed_components_state
      | None => raise KeyError
      end
  end.

(** The delta of [run_user_script], from the two snapshots on. *)
Definition reconcile (compoennts_before_user_run proposed_components_state : Components)
    : M unit :=
  let compoennts_before_user_run := strip_html compoennts_before_user_run in
  let proposed_components_state := strip_html proposed_components_state in
  if decide (keys_view compoennts_before_user_run = keys_view proposed_components_state)
  then
    do_ exec (clear_component_refresh_queue FULL_PAGE);
    track_components compoennts_before_user_run proposed_components_state
  else exec (schedule_component_refresh FULL_PAGE).

Definition run_user_script : M unit := λ st,
  match context_hs_user_app_db_path st with
  | None => Raise AttributeError st
  | Some _ =>
      (let compoennts_before_user_run := get_components st in
       do_ compile_user_code;
       do proposed_components_state <- gets get_components;
       do_ exec (λ st, write_components (get_components st) st);
       reconcile compoennts_before_user_run proposed_components_state) st
  end.

(** *** The routes *)

Definition truthy_opt (v : option string) : bool :=
  match v with Some s => truthy s | None => false end.

(** [GET /update] *)
Definition should_components_update : M Response := λ st,
  let components := get_component_refresh_queue st in
  if decide (FULL_PAGE ∈ components)
  then Ok HXRefresh (clear_component_refresh_queue_all st)
  else Ok (HXTrigger components) st.

(** [GET /] *)
Definition root : M Response := λ st,
  match context_hs_user_app_db_path st with
  | None => Raise AttributeError st
  | Some _ =>
      let st := clear_component_refresh_queue_all st in
      Ok (MainPage (get_components st)) st
  end.

(** [GET /{component_key}/label] *)
Definition func_for_component (component_key : string) : M Response := λ st,
  match context_hs_user_app_db_path st with
  | None => Raise AssertionError st
  | Some _ =>
      match od_get (get_components st) component_key with
      | None => Raise KeyError st
      | Some component_attr =>
          match od_get component_attr "component_key" with
          | None => Raise KeyError st
          | Some key =>
              let st := clear_component_refresh_queue key st in
              if truthy key && truthy_opt (od_get component_attr "label") then
                match od_get component_attr "component_type",
                      od_get component_attr "label" with
                | Some component_type, Some label =>
                    Ok (Label label (bool_decide (component_type = "Nav"))) st
                | _, _ => Raise KeyError st
                end
              else Raise AssertionError st
          end
      end
  end.

(** [POST /value_changed/{component_key}], with the value the form and the
    query parameters carry under the key, if any. *)
Definition func_for_component_value_changed
    (component_key : string) (component_value_from_form
                              component_value_from_query_params : option string)
    : M Response := λ st,
  let components := get_components st in
  if truthy_opt component_value_from_form
     || truthy_opt component_value_from_query_params then
    let component_value :=
      if truthy_opt component_value_from_form
      then default "" component_value_from_form
      else default "" component_value_from_query_params in
    match od_get components component_key with
    | None => Raise KeyError st
    | Some record =>
        let components :=
          od_set component_key (od_set CURRENT_VALUE component_value record)
                 components in
        let st := write_components components st in
        Ok Success (set_queue_user_script_rerun true st)
    end
  else Raise AssertionError st.

Definition call_next (request : Request) : M Response :=
  match route request with
  | GetRoot => root
  | GetUpdate => should_components_update
  | GetLabel component_key => func_for_component component_key
  | PostValueChanged component_key form query =>
      func_for_component_value_changed component_key form query
  | OtherPath => ret NotFound
  end.

(** The visitor identity of a request: the cookie if it is set and not
    empty, else a freshly drawn one. *)
Definition hs_user_id (request : Request) : string :=
  match cookie_hs_user_id request with
  | Some id => if truthy id then id else minted_id request
  | None => minted_id request
  end.

(** [evaluate_user_code_middleware], up to [call_next]. *)
Definition before_call_next (request : Request) : M unit := λ st,
  let st := set_context (hs_data_path (hs_user_id request)) st in
  match route request with
  | GetRoot =>
      run_user_script
        (clear_component_refresh_queue_all (clear_components st))
  | _ => if _queue_user_script_rerun st then run_user_script st else Ok tt st
  end.

Definition evaluate_user_code_middleware (request : Request) : M Response :=
  do_ before_call_next request;
  call_next request.

(** [Hyperstream.__init__], as far as the state goes: in a new process
    neither [builtins] nor the context carries a path, the rerun flag is
    set, and the two resets act on the shelves [fs] found on disk. *)
Definition __init__ (fs : gmap string Shelf) : App :=
  clear_component_refresh_queue_all (clear_components (mkApp None None true fs)).

(** ** Observations and specification vocabulary *)

(** The refresh queue and the component records of the shelf at a path. *)
Definition pending_at (path : string) (st : App) : gset string :=
  default ∅ (update_required (shelf_at path st)).

Definition components_at (path : string) (st : App) : Components :=
  default [] (components (shelf_at path st)).

(** The current shelf with its queue overwritten. *)
Definition set_update_required (q : gset string) (st : App) : App :=
  with_app_db (λ app_db, mkShelf (components app_db) (Some q)) st.

(** What the script does when it is run from [st]. *)
Definition script_run (st : App) : ScriptRun :=
  user_script
    (get_components
       (set_builtins (default "error" (context_hs_user_app_db_path st))
                     (set_queue_user_script_rerun false st))).

Definition script_fails (r : ScriptRun) : Prop :=
  match r with
  | DoesNotCompile => True
  | Ran _ raised => raised = true
  end.

(** The queue invariant of the data model: in every shelf, a pending key is
    the sentinel or the key of a stored component. *)
Definition queue_inv (st : App) : Prop :=
  ∀ path key, key ∈ pending_at path st →
    key = FULL_PAGE ∨ key ∈ keys_view (components_at path st).

(** The keys the inner loop schedules, and whether it runs to its end. *)
Fixpoint scheduled_by_attrs (key_before : string) (attr_before attr_next : Record_)
    (attrs : list string) : gset string * bool :=
  match attrs with
  | [] => (∅, true)
  | attr_to_track :: attrs =>
      match od_get attr_before attr_to_track, od_get attr_next attr_to_track with
      | Some v_before, Some v_next =>
          let r := scheduled_by_attrs key_before attr_before attr_next attrs in
          ((if decide (v_before = v_next) then ∅ else {[key_before]}) ∪ r.1, r.2)
      | _, _ => (∅, false)
      end
  end.

(** The same for the outer loop. *)
Fixpoint scheduled_by_components (items proposed : Components) : gset string * bool :=
  match items with
  | [] => (∅, true)
  | (key_before, attr_before) :: items =>
      match od_get proposed key_before with
      | Some attr_next =>
          let r := scheduled_by_attrs key_before attr_before attr_next
                     (component_attr_to_trackchanges attr_before) in
          if r.2 then
            let r' := scheduled_by_components items proposed in
            (r.1 ∪ r'.1, r'.2)
          else r
      | None => (∅, false)
      end
  end.

(** Every tracked attribute of every record of [before] exists in the
    record of [after] under the same key. *)
Definition attrs_covered (before after : Components) : Prop :=
  ∀ key attr_before attr_next attr,
    (key, attr_before) ∈ before → od_get after key = Some attr_next →
    attr ∈ od_keys attr_before → attr ≠ CURRENT_VALUE →
    is_Some (od_get attr_next attr).

(** Some tracked attribute of the record under [key] differs. *)
Definition attr_differs (before after : Components) (key : string) : Prop :=
  ∃ attr_before attr_next attr,
    (key, attr_before) ∈ before ∧ od_get after key = Some attr_next ∧
    attr ∈ od_keys attr_before ∧ attr ≠ CURRENT_VALUE ∧
    od_get attr_before attr ≠ od_get attr_next attr.

(** ** Ordered dictionaries *)

Lemma od_get_is_Some {V} (d : OrderedDict V) (k : string) :
  is_Some (od_get d k) ↔ k ∈ keys_view d.
Proof.
  unfold keys_view, od_keys. induction d as [|[k' v] d IH]; simpl.
  - split; [intros [? [=]] | set_solver].
  - destruct (decide (k' = k)) as [->|Hne].
    + split; [set_solver | eauto].
    + rewrite IH. set_solver.
Qed.

Lemma od_get_None {V} (d : OrderedDict V) (k : string) :
  od_get d k = None ↔ k ∉ keys_view d.
Proof. rewrite <- od_get_is_Some, eq_None_not_Some. done. Qed.

Lemma od_get_elem_of {V} (d : OrderedDict V) (k : string) (v : V) :
  od_get d k = Some v → (k, v) ∈ d.
Proof.
  induction d as [|[k' v'] d IH]; simpl; [done|].
  destruct (decide (k' = k)) as [->|Hne].
  - intros [= ->]. left.
  - intros H. right. auto.
Qed.

Lemma elem_of_keys_view {V} (d : OrderedDict V) (k : string) (v : V) :
  (k, v) ∈ d → k ∈ keys_view d.
Proof.
  unfold keys_view, od_keys. intros H. apply elem_of_list_to_set.
  apply list_elem_of_fmap. by exists (k, v).
Qed.

Lemma od_get_od_set {V} (d : OrderedDict V) (k k' : string) (v : V) :
  od_get (od_set k v d) k' = if decide (k = k') then Some v else od_get d k'.
Proof.
  induction d as [|[k0 v0] d IH]; simpl.
  - repeat case_decide; congruence.
  - destruct (decide (k0 = k)) as [->|Hne]; simpl.
    + repeat case_decide; congruence.
    + rewrite IH. repeat case_decide; congruence.
Qed.

Lemma keys_view_od_set {V} (d : OrderedDict V) (k : string) (v : V) :
  keys_view (od_set k v d) = keys_view d ∪ {[k]}.
Proof.
  apply set_eq. intros k'.
  rewrite elem_of_union, <- !od_get_is_Some, od_get_od_set, elem_of_singleton.
  case_decide; subst; split; eauto. intros [? | ?]; [done | congruence].
Qed.

(** ** The shelves *)

Lemma get_app_db_path_with_app_db body st :
  get_app_db_path (with_app_db body st) = get_app_db_path st.
Proof. done. Qed.

Lemma shelf_at_with_app_db body path st :
  shelf_at path (with_app_db body st) =
  if decide (path = get_app_db_path st)
  then body (shelf_at (get_app_db_path st) st) else shelf_at path st.
Proof.
  unfold shelf_at, with_app_db; simpl. case_decide as Hp.
  - subst. by rewrite lookup_insert_eq.
  - by rewrite lookup_insert_ne.
Qed.

Lemma with_app_db_compose f g st :
  with_app_db f (with_app_db g st) = with_app_db (f ∘ g) st.
Proof.
  unfold with_app_db at 1. rewrite get_app_db_path_with_app_db.
  rewrite shelf_at_with_app_db, decide_True by done.
  unfold with_app_db; simpl. by rewrite insert_insert_eq.
Qed.

Lemma schedule_component_refresh_eq key st :
  schedule_component_refresh key st =
  set_update_required (get_component_refresh_queue st ∪ {[key]}) st.
Proof. done. Qed.

Lemma clear_component_refresh_queue_eq key st :
  clear_component_refresh_queue key st =
  set_update_required (get_component_refresh_queue st ∖ {[key]}) st.
Proof. done. Qed.

Lemma clear_component_refresh_queue_all_eq st :
  clear_component_refresh_queue_all st = set_update_required ∅ st.
Proof. done. Qed.

Lemma get_queue_set_update_required q st :
  get_component_refresh_queue (set_update_required q st) = q.
Proof.
  unfold get_component_refresh_queue, set_update_required.
  rewrite get_app_db_path_with_app_db, shelf_at_with_app_db, decide_True; done.
Qed.

Lemma get_components_set_update_required q st :
  get_components (set_update_required q st) = get_components st.
Proof.
  unfold get_components, set_update_required.
  rewrite get_app_db_path_with_app_db, shelf_at_with_app_db, decide_True; done.
Qed.

Lemma set_update_required_twice q q' st :
  set_update_required q' (set_update_required q st) = set_update_required q' st.
Proof. unfold set_update_required. by rewrite with_app_db_compose. Qed.

Lemma pending_at_set_update_required q path st :
  pending_at path (set_update_required q st) =
  if decide (path = get_app_db_path st) then q else pending_at path st.
Proof.
  unfold pending_at, set_update_required. rewrite shelf_at_with_app_db.
  by case_decide.
Qed.

Lemma components_at_set_update_required q path st :
  components_at path (set_update_required q st) = components_at path st.
Proof.
  unfold components_at, set_update_required. rewrite shelf_at_with_app_db.
  case_decide; by subst.
Qed.

Lemma pending_at_write_components cs path st :
  pending_at path (write_components cs st) = pending_at path st.
Proof.
  unfold pending_at, write_components. rewrite shelf_at_with_app_db.
  case_decide; by subst.
Qed.

Lemma components_at_write_components cs path st :
  components_at path (write_components cs st) =
  if decide (path = get_app_db_path st) then cs else components_at path st.
Proof.
  unfold components_at, write_components. rewrite shelf_at_with_app_db.
  by case_decide.
Qed.

Lemma get_components_eq st :
  get_components st = components_at (get_app_db_path st) st.
Proof. done. Qed.

Lemma get_component_refresh_queue_eq st :
  get_component_refresh_queue st = pending_at (get_app_db_path st) st.
Proof. done. Qed.

(** ** The two loops *)

Lemma track_attrs_scheduled key attr_before attr_next attrs q st :
  track_attrs key attr_before attr_next attrs (set_update_required q st) =
  let r := scheduled_by_attrs key attr_before attr_next attrs in
  (if r.2 then Ok tt else Raise KeyError) (set_update_required (q ∪ r.1) st).
Proof.
  revert q. induction attrs as [|attr attrs IH]; intros q; simpl.
  - unfold ret. by rewrite union_empty_r_L.
  - destruct (od_get attr_before attr) as [v_before|];
      [destruct (od_get attr_next attr) as [v_next|]|]; simpl;
      try (unfold raise; by rewrite union_empty_r_L).
    unfold bind. destruct (decide (v_before = v_next)) as [->|Hne].
    + unfold ret. rewrite IH. simpl. by rewrite union_empty_l_L.
    + unfold exec. rewrite schedule_component_refresh_eq.
      rewrite get_queue_set_update_required, set_update_required_twice.
      rewrite IH. simpl. by rewrite (assoc_L (∪)).
Qed.

Lemma track_components_scheduled items proposed q st :
  track_components items proposed (set_update_required q st) =
  let r := scheduled_by_components items proposed in
  (if r.2 then Ok tt else Raise KeyError) (set_update_required (q ∪ r.1) st).
Proof.
  revert q. induction items as [|[key attr_before] items IH]; intros q; simpl.
  - unfold ret. by rewrite union_empty_r_L.
  - destruct (od_get proposed key) as [attr_next|]; simpl;
      [|unfold raise; by rewrite union_empty_r_L].
    unfold bind. rewrite track_attrs_scheduled. simpl.
    destruct (scheduled_by_attrs key attr_before attr_next _) as [S [|]]; simpl.
    + rewrite IH. simpl. by rewrite (assoc_L (∪)).
    + done.
Qed.

Lemma scheduled_by_attrs_subseteq key attr_before attr_next attrs :
  (scheduled_by_attrs key attr_before attr_next attrs).1 ⊆ {[key]}.
Proof.
  induction attrs as [|attr attrs IH]; simpl; [set_solver|].
  destruct (od_get attr_before attr); [destruct (od_get attr_next attr)|];
    simpl; [|set_solver..].
  case_decide; set_solver.
Qed.

Lemma scheduled_by_components_subseteq items proposed :
  (scheduled_by_components items proposed).1 ⊆ keys_view proposed.
Proof.
  clear user_script.
  induction items as [|[key attr_before] items IH]; simpl; [set_solver|].
  destruct (od_get proposed key) as [attr_next|] eqn:Hget; simpl; [|set_solver].
  pose proof (scheduled_by_attrs_subseteq key attr_before attr_next
                (component_attr_to_trackchanges attr_before)) as Hsub.
  assert (key ∈ keys_view proposed) by (apply od_get_is_Some; eauto).
  destruct (scheduled_by_attrs key attr_before attr_next _) as [S [|]]; simpl in *;
    set_solver.
Qed.

Lemma elem_of_component_attr_to_trackchanges attr attr_before :
  attr ∈ component_attr_to_trackchanges attr_before ↔
  attr ∈ od_keys attr_before ∧ attr ≠ CURRENT_VALUE.
Proof.
  unfold component_attr_to_trackchanges. rewrite list_elem_of_filter. tauto.
Qed.

Lemma od_keys_is_Some {V} (d : OrderedDict V) (k : string) :
  k ∈ od_keys d → is_Some (od_get d k).
Proof.
  intros H. apply od_get_is_Some. unfold keys_view.
  by apply elem_of_list_to_set.
Qed.

Lemma scheduled_by_attrs_completes key attr_before attr_next attrs :
  (scheduled_by_attrs key attr_before attr_next attrs).2 = true ↔
  ∀ attr, attr ∈ attrs →
    is_Some (od_get attr_before attr) ∧ is_Some (od_get attr_next attr).
Proof.
  induction attrs as [|attr attrs IH]; simpl.
  - split; [intros _ ? H; by apply elem_of_nil in H | done].
  - destruct (od_get attr_before attr) as [v_before|] eqn:Hb;
      [destruct (od_get attr_next attr) as [v_next|] eqn:Hn|]; simpl.
    + rewrite IH. split.
      * intros H a [->|Ha]%elem_of_cons; [rewrite Hb, Hn; eauto | auto].
      * intros H a Ha. apply H. by right.
    + split; [done|]. intros H. destruct (H attr) as [_ [? Hs]]; [left|].
      congruence.
    + split; [done|]. intros H. destruct (H attr) as [[? Hs] _]; [left|].
      congruence.
Qed.

Lemma elem_of_scheduled_by_attrs key attr_before attr_next attrs key' :
  (scheduled_by_attrs key attr_before attr_next attrs).2 = true →
  key' ∈ (scheduled_by_attrs key attr_before attr_next attrs).1 ↔
  key' = key ∧ ∃ attr, attr ∈ attrs ∧
                 od_get attr_before attr ≠ od_get attr_next attr.
Proof.
  induction attrs as [|attr attrs IH]; simpl.
  - intros _. split; [set_solver|]. intros [_ (? & H & _)].
    by apply elem_of_nil in H.
  - destruct (od_get attr_before attr) as [v_before|] eqn:Hb;
      [destruct (od_get attr_next attr) as [v_next|] eqn:Hn|]; simpl; try done.
    intros Hok. rewrite elem_of_union, (IH Hok). split.
    + intros [H|[-> (a & Ha & Hd)]].
      * case_decide; [set_solver|]. apply elem_of_singleton in H as ->.
        split; [done|]. exists attr. split; [left|]. rewrite Hb, Hn. congruence.
      * split; [done|]. exists a. split; [by right | done].
    + intros [-> (a & [->|Ha]%elem_of_cons & Hd)].
      * left. rewrite Hb, Hn in Hd. case_decide; [congruence | set_solver].
      * right. eauto.
Qed.

Lemma scheduled_by_components_completes items proposed :
  (scheduled_by_components items proposed).2 = true ↔
  ∀ key attr_before, (key, attr_before) ∈ items →
    ∃ attr_next, od_get proposed key = Some attr_next ∧
      (scheduled_by_attrs key attr_before attr_next
         (component_attr_to_trackchanges attr_before)).2 = true.
Proof.
  induction items as [|[key attr_before] items IH]; simpl.
  - split; [intros _ ? ? H; by apply elem_of_nil in H | done].
  - destruct (od_get proposed key) as [attr_next|] eqn:Hget; simpl.
    + destruct (scheduled_by_attrs key attr_before attr_next _) as [S ok] eqn:Hs.
      destruct ok; simpl.
      * rewrite IH. split.
        -- intros H k rb [[= -> ->]|Hin]%elem_of_cons; [|auto].
           exists attr_next. by rewrite Hs.
        -- intros H k rb Hin. apply H. by right.
      * split; [done|]. intros H.
        destruct (H key attr_before) as (rn & Hrn & Hok); [left|].
        rewrite Hget in Hrn. injection Hrn as <-. by rewrite Hs in Hok.
    + split; [done|]. intros H.
      destruct (H key attr_before) as (rn & Hrn & _); [left|]. congruence.
Qed.

Lemma elem_of_scheduled_by_components items proposed key :
  (scheduled_by_components items proposed).2 = true →
  key ∈ (scheduled_by_components items proposed).1 ↔
  ∃ attr_before attr_next,
    (key, attr_before) ∈ items ∧ od_get proposed key = Some attr_next ∧
    key ∈ (scheduled_by_attrs key attr_before attr_next
             (component_attr_to_trackchanges attr_before)).1.
Proof.
  clear user_script.
  induction items as [|[key0 attr_before] items IH]; simpl.
  - intros _. split; [set_solver|]. intros (? & ? & H & _).
    by apply elem_of_nil in H.
  - destruct (od_get proposed key0) as [attr_next|] eqn:Hget; simpl; [|done].
    destruct (scheduled_by_attrs key0 attr_before attr_next _) as [S ok] eqn:Hs.
    destruct ok; simpl; [|done].
    intros Hok. rewrite elem_of_union, (IH Hok). split.
    + intros [H|(rb & rn & Hin & Hrn & Hk)].
      * assert (key = key0) as ->.
        { pose proof (scheduled_by_attrs_subseteq key0 attr_before attr_next
            (component_attr_to_trackchanges attr_before)) as Hsub.
          rewrite Hs in Hsub. simpl in Hsub. set_solver. }
        exists attr_before, attr_next. rewrite Hs. split; [left | done].
      * exists rb, rn. split; [by right | done].
    + intros (rb & rn & [[= -> ->]|Hin]%elem_of_cons & Hrn & Hk).
      * left. rewrite Hget in Hrn. injection Hrn as <-. by rewrite Hs in Hk.
      * right. eauto.
Qed.

(** With equal key sets the lookup of a key of [before] in [after] cannot
    fail, so the loops complete exactly when the attributes are covered. *)
Lemma scheduled_completes_iff_covered before after :
  keys_view before = keys_view after →
  (scheduled_by_components before after).2 = true ↔ attrs_covered before after.
Proof.
  intros Hkeys. rewrite scheduled_by_components_completes. split.
  - intros H key rb rn attr Hin Hrn Hattr Hcv.
    destruct (H key rb Hin) as (rn' & Hrn' & Hok).
    rewrite Hrn in Hrn'. injection Hrn' as <-.
    rewrite scheduled_by_attrs_completes in Hok.
    apply Hok. by apply elem_of_component_attr_to_trackchanges.
  - intros H key rb Hin.
    assert (is_Some (od_get after key)) as [rn Hrn].
    { apply od_get_is_Some. rewrite <- Hkeys. by eapply elem_of_keys_view. }
    exists rn. split; [done|]. apply scheduled_by_attrs_completes.
    intros attr [Hattr Hcv]%elem_of_component_attr_to_trackchanges.
    split; [by apply od_keys_is_Some | by eapply H].
Qed.

Lemma elem_of_scheduled_iff_differs before after key :
  (scheduled_by_components before after).2 = true →
  key ∈ (scheduled_by_components before after).1 ↔ attr_differs before after key.
Proof.
  intros Hok. rewrite (elem_of_scheduled_by_components _ _ _ Hok).
  rewrite scheduled_by_components_completes in Hok. unfold attr_differs. split.
  - intros (rb & rn & Hin & Hrn & Hk).
    destruct (Hok key rb Hin) as (rn' & Hrn' & Hok').
    rewrite Hrn in Hrn'. injection Hrn' as <-.
    apply (elem_of_scheduled_by_attrs _ _ _ _ _ Hok') in Hk
      as [_ (attr & [? ?]%elem_of_component_attr_to_trackchanges & Hd)].
    by exists rb, rn, attr.
  - intros (rb & rn & attr & Hin & Hrn & Hattr & Hcv & Hd).
    exists rb, rn. split; [done|]. split; [done|].
    destruct (Hok key rb Hin) as (rn' & Hrn' & Hok').
    rewrite Hrn in Hrn'. injection Hrn' as <-.
    apply (elem_of_scheduled_by_attrs _ _ _ _ _ Hok'). split; [done|].
    exists attr. split; [|done]. by apply elem_of_component_attr_to_trackchanges.
Qed.

Lemma scheduled_by_attrs_stops key attr_before attr_next attrs :
  (scheduled_by_attrs key attr_before attr_next attrs).2 = false →
  (∀ attr, attr ∈ attrs → is_Some (od_get attr_before attr)) →
  ∃ attr, attr ∈ attrs ∧ od_get attr_next attr = None.
Proof.
  induction attrs as [|attr attrs IH]; simpl; [done|]. intros Hstop Hb.
  destruct (Hb attr) as [v_before Hvb]; [left|]. rewrite Hvb in Hstop.
  destruct (od_get attr_next attr) as [v_next|] eqn:Hn; simpl in Hstop.
  - destruct IH as (a & Ha & Hnone); [done | |].
    + intros a Ha. apply Hb. by right.
    + exists a. split; [by right | done].
  - exists attr. split; [left | done].
Qed.

Lemma scheduled_by_components_stops items proposed :
  (scheduled_by_components items proposed).2 = false →
  (∀ key attr_before, (key, attr_before) ∈ items →
     is_Some (od_get proposed key)) →
  ∃ key attr_before attr_next attr,
    (key, attr_before) ∈ items ∧ od_get proposed key = Some attr_next ∧
    attr ∈ od_keys attr_before ∧ attr ≠ CURRENT_VALUE ∧
    od_get attr_next attr = None.
Proof.
  induction items as [|[key attr_before] items IH]; simpl; [done|].
  intros Hstop Hsome.
  destruct (Hsome key attr_before) as [attr_next Hget]; [left|].
  rewrite Hget in Hstop.
  destruct (scheduled_by_attrs key attr_before attr_next _) as [S ok] eqn:Hs.
  destruct ok; simpl in Hstop.
  - destruct IH as (k & rb & rn & a & Hin & ?); [done | |].
    + intros k rb Hin. eapply Hsome. by right.
    + exists k, rb, rn, a. split; [by right | done].
  - destruct (scheduled_by_attrs_stops key attr_before attr_next
                (component_attr_to_trackchanges attr_before))
      as (a & [? ?]%elem_of_component_attr_to_trackchanges & Hnone).
    + by rewrite Hs.
    + intros a [? _]%elem_of_component_attr_to_trackchanges.
      by apply od_keys_is_Some.
    + exists key, attr_before, attr_next, a. split; [left | done].
Qed.

(** ** Reconciliation *)

Lemma reconcile_keys_differ before after st :
  keys_view (strip_html before) ≠ keys_view (strip_html after) →
  reconcile before after st = Ok tt (schedule_component_refresh FULL_PAGE st).
Proof. intros Hne. unfold reconcile. by rewrite decide_False. Qed.

Lemma reconcile_keys_equal before after st :
  keys_view (strip_html before) = keys_view (strip_html after) →
  reconcile before after st =
  let r := scheduled_by_components (strip_html before) (strip_html after) in
  (if r.2 then Ok tt else Raise KeyError)
    (set_update_required
       ((get_component_refresh_queue st ∖ {[FULL_PAGE]}) ∪ r.1) st).
Proof.
  intros Heq. unfold reconcile. rewrite decide_True by done.
  unfold bind, exec. rewrite clear_component_refresh_queue_eq.
  by rewrite track_components_scheduled.
Qed.

Lemma strip_html_od_set key record cs :
  py_in HS_HTML_CONSTANT key = true →
  strip_html (od_set key record cs) = strip_html cs.
Proof.
  intros Hk. unfold strip_html.
  induction cs as [|[k r] cs IH]; simpl.
  - rewrite filter_cons_False; [done | simpl; congruence].
  - destruct (decide (k = key)) as [->|Hne].
    + rewrite !filter_cons_False; [done | simpl; congruence..].
    + destruct (py_in HS_HTML_CONSTANT k) eqn:Hpk.
      * rewrite !filter_cons_False; [done | simpl; congruence..].
      * rewrite !filter_cons_True; [by f_equal | done..].
Qed.

Lemma strip_html_od_del key cs :
  py_in HS_HTML_CONSTANT key = true →
  strip_html (od_del key cs) = strip_html cs.
Proof.
  clear user_script.
  intros Hk. unfold strip_html, od_del.
  induction cs as [|[k r] cs IH]; simpl; [done|].
  destruct (decide (k = key)) as [->|Hne].
  - rewrite (filter_cons_False (λ kv, kv.1 ≠ key)); [|simpl; tauto].
    rewrite (filter_cons_False (λ c, py_in _ c.1 = false)); [done|simpl; congruence].
  - rewrite (filter_cons_True (λ kv, kv.1 ≠ key)); [|done].
    destruct (py_in HS_HTML_CONSTANT k) eqn:Hpk.
    + rewrite !filter_cons_False; [done | simpl; congruence..].
    + rewrite !filter_cons_True; [by f_equal | done..].
Qed.

(** C1, amended.  When the key sets of the two snapshots differ once the
    records whose key contains [HS_HTML_CONSTANT] are left out, the whole
    outcome of the reconciliation is the one store operation that enqueues
    the sentinel: the queue becomes the old queue plus [_full_page], the
    stored components are untouched, and no attribute is compared: the
    outcome is the same for any other records under the same two key
    sets, whatever their attributes. *)
Theorem reconcile_key_sets_differ_full_page before after st :
  keys_view (strip_html before) ≠ keys_view (strip_html after) →
  reconcile before after st = Ok tt (schedule_component_refresh FULL_PAGE st) ∧
  get_component_refresh_queue (final_state (reconcile before after st)) =
    get_component_refresh_queue st ∪ {[FULL_PAGE]} ∧
  get_components (final_state (reconcile before after st)) = get_components st ∧
  ∀ before' after',
    keys_view (strip_html before') = keys_view (strip_html before) →
    keys_view (strip_html after') = keys_view (strip_html after) →
    reconcile before' after' st = reconcile before after st.
Proof.
  intros Hne. rewrite (reconcile_keys_differ _ _ _ Hne). simpl.
  rewrite schedule_component_refresh_eq, get_queue_set_update_required,
    get_components_set_update_required.
  repeat split. intros before' after' Hb Ha.
  rewrite reconcile_keys_differ by congruence.
  by rewrite schedule_component_refresh_eq.
Qed.

(** C2, amended.  All of this on the two snapshots with the records whose
    key contains [HS_HTML_CONSTANT] left out.  With equal key sets, and
    provided every record of [after]
    has the tracked attributes (all but [current_value]) of the record of
    [before] under its key, the reconciliation returns; a key is then in the
    queue exactly when it was pending already and is not the sentinel, or
    some tracked attribute of its record differs; a stale sentinel is
    cleared, and the queue holds the sentinel only if a component is itself
    keyed [_full_page]; when no tracked attribute differs (a change of
    [current_value] alone) nothing is enqueued; the stored components are
    untouched. *)
Theorem reconcile_key_sets_equal_refresh before after st :
  keys_view (strip_html before) = keys_view (strip_html after) →
  attrs_covered (strip_html before) (strip_html after) →
  ∃ st', reconcile before after st = Ok tt st' ∧
    (∀ key, key ∈ get_component_refresh_queue st' ↔
       (key ∈ get_component_refresh_queue st ∧ key ≠ FULL_PAGE) ∨
       attr_differs (strip_html before) (strip_html after) key) ∧
    (FULL_PAGE ∉ keys_view (strip_html before) →
       FULL_PAGE ∉ get_component_refresh_queue st') ∧
    ((∀ key, ¬ attr_differs (strip_html before) (strip_html after) key) →
       get_component_refresh_queue st' =
       get_component_refresh_queue st ∖ {[FULL_PAGE]}) ∧
    get_components st' = get_components st.
Proof.
  clear user_script.
  intros Hkeys Hcov. rewrite (reconcile_keys_equal _ _ _ Hkeys). simpl.
  pose proof (proj2 (scheduled_completes_iff_covered _ _ Hkeys) Hcov) as Hok.
  rewrite Hok. eexists. split; [done|].
  rewrite get_queue_set_update_required, get_components_set_update_required.
  assert (∀ key, key ∈ (get_component_refresh_queue st ∖ {[FULL_PAGE]})
                   ∪ (scheduled_by_components (strip_html before) (strip_html after)).1
            ↔ (key ∈ get_component_refresh_queue st ∧ key ≠ FULL_PAGE) ∨
              attr_differs (strip_html before) (strip_html after) key) as Hchar.
  { intros key. rewrite elem_of_union, elem_of_difference, elem_of_singleton.
    by rewrite (elem_of_scheduled_iff_differs _ _ _ Hok). }
  split; [done|]. split; [|split; [|done]].
  - intros Hfp [[_ ?]|(rb & _ & _ & Hin & _)]%Hchar; [done|].
    apply Hfp. by eapply elem_of_keys_view.
  - intros Hsame. apply set_eq. intros key.
    rewrite Hchar, elem_of_difference, elem_of_singleton.
    specialize (Hsame key). tauto.
Qed.

(** C9. With equal key sets the reconciliation raises [KeyError] exactly
    when some record of [after] lacks a tracked attribute of the record of
    [before] under the same key, and returns exactly when every tracked
    attribute is covered. *)
Theorem reconcile_raises_iff_attr_missing before after st :
  keys_view (strip_html before) = keys_view (strip_html after) →
  (raises (reconcile before after st) = Some KeyError ↔
     ∃ key attr_before attr_next attr,
       (key, attr_before) ∈ strip_html before ∧
       od_get (strip_html after) key = Some attr_next ∧
       attr ∈ od_keys attr_before ∧ attr ≠ CURRENT_VALUE ∧
       od_get attr_next attr = None) ∧
  (raises (reconcile before after st) = None ↔
     attrs_covered (strip_html before) (strip_html after)).
Proof.
  clear user_script.
  intros Hkeys. rewrite (reconcile_keys_equal _ _ _ Hkeys). simpl.
  pose proof (scheduled_completes_iff_covered _ _ Hkeys) as Hiff.
  pose proof (scheduled_by_components_stops (strip_html before)
                (strip_html after)) as Hstops.
  destruct (scheduled_by_components _ _) as [S [|]]; simpl in *.
  - split; [|tauto]. split; [done|].
    intros (key & rb & rn & attr & Hin & Hrn & Hattr & Hcv & Hnone).
    destruct (proj1 Hiff eq_refl key rb rn attr) as [? ?]; congruence.
  - split.
    + split; [intros _ | done]. apply Hstops; [done|].
      intros key rb Hin. apply od_get_is_Some. rewrite <- Hkeys.
      by eapply elem_of_keys_view.
    + split; [done|]. intros Hcov. by apply Hiff in Hcov.
Qed.

(** C4. Enqueuing is a set union: the queue after is the queue before plus
    the key, and enqueuing a key that is already pending changes nothing at
    all, the sentinel included. *)
Theorem schedule_component_refresh_idempotent key st :
  get_component_refresh_queue (schedule_component_refresh key st) =
    get_component_refresh_queue st ∪ {[key]} ∧
  (key ∈ get_component_refresh_queue st →
     schedule_component_refresh key st = st ∧
     get_component_refresh_queue (schedule_component_refresh key st) =
       get_component_refresh_queue st).
Proof.
  split.
  - by rewrite schedule_component_refresh_eq, get_queue_set_update_required.
  - intros Hin.
    assert (schedule_component_refresh key st = st) as Heq; [|by rewrite Heq].
    unfold get_component_refresh_queue, shelf_at in Hin.
    unfold schedule_component_refresh, with_app_db, shelf_at.
    destruct (shelves st !! get_app_db_path st) as [[cs [q|]]|] eqn:Hsh;
      simpl in *; try set_solver.
    replace (q ∪ {[key]}) with q by set_solver.
    rewrite insert_id by done. by destruct st.
Qed.

(** ** The script run *)

Lemma reconcile_final_state before after st :
  ∃ q, final_state (reconcile before after st) = set_update_required q st ∧
       q ⊆ get_component_refresh_queue st ∪ {[FULL_PAGE]}
             ∪ keys_view (strip_html after).
Proof.
  clear user_script.
  destruct (decide (keys_view (strip_html before) = keys_view (strip_html after)))
    as [Heq|Hne].
  - rewrite (reconcile_keys_equal _ _ _ Heq). simpl.
    pose proof (scheduled_by_components_subseteq (strip_html before)
                  (strip_html after)) as Hsub.
    eexists. split; [by destruct (scheduled_by_components _ _).2|].
    set_solver.
  - rewrite (reconcile_keys_differ _ _ _ Hne). simpl.
    rewrite schedule_component_refresh_eq. eexists. split; [done|]. set_solver.
Qed.

Lemma keys_view_strip_html cs : keys_view (strip_html cs) ⊆ keys_view cs.
Proof.
  intros key [v Hget%od_get_elem_of]%od_get_is_Some.
  apply list_elem_of_filter in Hget as [_ Hin]. by eapply elem_of_keys_view.
Qed.

(** The declarations of the script, run in order. *)
Lemma declared_frame (declared : list (string * Record_)) st :
  let st' := foldl (λ st d, declare d.1 d.2 st) st declared in
  builtins_hs_user_app_db_path st' = builtins_hs_user_app_db_path st ∧
  context_hs_user_app_db_path st' = context_hs_user_app_db_path st ∧
  _queue_user_script_rerun st' = _queue_user_script_rerun st ∧
  (∀ path, pending_at path st' = pending_at path st) ∧
  (∀ path, path ≠ get_app_db_path st →
     components_at path st' = components_at path st) ∧
  (∀ path, keys_view (components_at path st) ⊆ keys_view (components_at path st')) ∧
  (∀ path key, key ∉ declared.*1 →
     od_get (components_at path st') key = od_get (components_at path st) key).
Proof.
  clear user_script.
  revert st. induction declared as [|[k r] declared IH]; intros st; simpl.
  - repeat split; done.
  - destruct (IH (declare k r st)) as (Hb & Hc & Hf & Hp & Ho & Hk & Hg).
    simpl in *. rewrite Hb, Hc, Hf. repeat split; try done.
    + intros path. rewrite Hp. apply pending_at_write_components.
    + intros path Hne. rewrite Ho by done. unfold declare.
      rewrite components_at_write_components. by rewrite decide_False.
    + intros path. etrans; [|apply Hk]. unfold declare.
      rewrite components_at_write_components. case_decide as Hp'; [|done].
      subst. rewrite keys_view_od_set. set_solver.
    + intros path key Hnot. rewrite Hg by set_solver. unfold declare.
      rewrite components_at_write_components. case_decide as Hp'; [|done].
      subst. rewrite od_get_od_set, decide_False; [done | set_solver].
Qed.

Lemma compile_user_code_eq st :
  compile_user_code st =
  let st0 := set_queue_user_script_rerun false st in
  match script_run st with
  | DoesNotCompile => Raise ScriptError st0
  | Ran declared raised =>
      (if raised then Raise ScriptError else Ok tt)
        (foldl (λ st d, declare d.1 d.2 st)
               (set_builtins (default "error" (context_hs_user_app_db_path st)) st0)
               declared)
  end.
Proof.
  unfold compile_user_code, script_run. simpl.
  destruct (user_script _) as [|declared [|]]; done.
Qed.

Lemma run_user_script_eq st path :
  context_hs_user_app_db_path st = Some path →
  run_user_script st =
  match compile_user_code st with
  | Ok _ st1 =>
      reconcile (get_components st) (get_components st1)
                (write_components (get_components st1) st1)
  | Raise e st1 => Raise e st1
  end.
Proof.
  intros Hctx. unfold run_user_script. rewrite Hctx. unfold bind, gets, exec.
  by destruct (compile_user_code st).
Qed.

(** What a run of the script leaves alone, whether it returns or raises. *)
Lemma compile_user_code_frame st :
  let st' := final_state (compile_user_code st) in
  context_hs_user_app_db_path st' = context_hs_user_app_db_path st ∧
  _queue_user_script_rerun st' = false ∧
  (∀ path, pending_at path st' = pending_at path st) ∧
  (∀ path, keys_view (components_at path st) ⊆ keys_view (components_at path st')) ∧
  (∀ path key,
     (∀ declared raised, script_run st = Ran declared raised → key ∉ declared.*1) →
     od_get (components_at path st') key = od_get (components_at path st) key).
Proof.
  rewrite compile_user_code_eq. simpl.
  destruct (script_run st) as [|declared raised]; simpl.
  - repeat split; done.
  - pose proof (declared_frame declared
      (set_builtins (default "error" (context_hs_user_app_db_path st))
         (set_queue_user_script_rerun false st))) as (Hb & Hc & Hf & Hp & Ho & Hk & Hg).
    simpl in *.
    assert (final_state ((if raised then Raise ScriptError else Ok tt)
              (foldl (λ st d, declare d.1 d.2 st)
                 (set_builtins (default "error" (context_hs_user_app_db_path st))
                    (set_queue_user_script_rerun false st)) declared))
            = foldl (λ st d, declare d.1 d.2 st)
                 (set_builtins (default "error" (context_hs_user_app_db_path st))
                    (set_queue_user_script_rerun false st)) declared) as ->
      by (by destruct raised).
    repeat split; try done.
    intros path key Hnot. apply (Hg path key). by eapply Hnot.
Qed.

(** C5, amended.  The handler of a value change, for a key that is not
    among the components of the shelf [get_app_db_path] resolves (the one
    of the path left in [builtins] if there is one, else the one of the
    request's context), raises and leaves the whole state as it was,
    components and queue of every shelf included: the lookup error
    [KeyError] when the request carries a value that is not empty, the
    assertion of the handler when it carries none. *)
Theorem value_changed_unknown_key key form query st :
  od_get (get_components st) key = None →
  func_for_component_value_changed key form query st =
    Raise (if truthy_opt form || truthy_opt query
           then KeyError else AssertionError) st.
Proof.
  intros Hnone. unfold func_for_component_value_changed. rewrite Hnone.
  by destruct (truthy_opt form || truthy_opt query).
Qed.

(** C7. When the script does not run to its end, the run raises, and so
    does the request whose middleware started it: the handler is not
    reached.  The queue of every shelf is as it was before the run, and of
    the stored components no key is lost and no record the script did not
    declare again is changed.  (The error is the script's whenever the
    context carries a path, as it does inside every request; without one
    the run is refused before the script starts.) *)
Theorem run_user_script_script_fails st :
  script_fails (script_run st) →
  ∃ e st', run_user_script st = Raise e st' ∧
    (is_Some (context_hs_user_app_db_path st) → e = ScriptError) ∧
    (∀ request st0, before_call_next request st0 = run_user_script st →
       evaluate_user_code_middleware request st0 = Raise e st') ∧
    (∀ path, pending_at path st' = pending_at path st) ∧
    (∀ path key, key ∈ keys_view (components_at path st) →
       key ∈ keys_view (components_at path st')) ∧
    (∀ path key,
       (∀ declared raised, script_run st = Ran declared raised → key ∉ declared.*1) →
       od_get (components_at path st') key = od_get (components_at path st) key).
Proof.
  intros Hfails.
  assert (∀ e st', run_user_script st = Raise e st' →
            ∀ request st0, before_call_next request st0 = run_user_script st →
              evaluate_user_code_middleware request st0 = Raise e st') as Hprop.
  { intros e st' Hrun request st0 Hreq.
    unfold evaluate_user_code_middleware, bind. by rewrite Hreq, Hrun. }
  destruct (context_hs_user_app_db_path st) as [path|] eqn:Hctx.
  - pose proof (compile_user_code_frame st) as (_ & _ & Hp & Hk & Hg).
    assert (∃ st', compile_user_code st = Raise ScriptError st') as [st' Hc].
    { rewrite compile_user_code_eq. simpl.
      destruct (script_run st) as [|declared raised]; simpl in *; [eauto|].
      subst raised. eauto. }
    rewrite Hc in Hp, Hk, Hg. simpl in *.
    assert (run_user_script st = Raise ScriptError st') as Hrun
      by by rewrite (run_user_script_eq _ _ Hctx), Hc.
    exists ScriptError, st'. split; [done|]. split; [done|].
    split; [by apply Hprop|]. split; [done|]. split; [|done].
    intros p key. apply Hk.
  - assert (run_user_script st = Raise AttributeError st) as Hrun
      by (unfold run_user_script; by rewrite Hctx).
    exists AttributeError, st. split; [done|].
    split; [by intros [? [=]]|]. split; [by apply Hprop|]. done.
Qed.

(** ** The queue invariant *)

Lemma queue_inv_mono st st' :
  queue_inv st →
  (∀ path, pending_at path st' ⊆ pending_at path st) →
  (∀ path, keys_view (components_at path st) ⊆ keys_view (components_at path st')) →
  queue_inv st'.
Proof.
  intros Hinv Hp Hk path key Hin.
  destruct (Hinv path key) as [?|?]; [by apply Hp | by left |].
  right. by apply Hk.
Qed.

Lemma queue_inv_shelves st st' :
  shelves st' = shelves st → queue_inv st → queue_inv st'.
Proof.
  intros Hsh Hinv path key. specialize (Hinv path key).
  unfold pending_at, components_at, shelf_at in *. by rewrite Hsh.
Qed.

Lemma queue_inv_set_update_required q st :
  queue_inv st →
  (∀ key, key ∈ q → key = FULL_PAGE ∨ key ∈ keys_view (get_components st)) →
  queue_inv (set_update_required q st).
Proof.
  intros Hinv Hq path key.
  rewrite pending_at_set_update_required, components_at_set_update_required.
  case_decide as Hp; [subst; apply Hq | apply Hinv].
Qed.

Lemma queue_inv_write_components cs st :
  queue_inv st → keys_view (get_components st) ⊆ keys_view cs →
  queue_inv (write_components cs st).
Proof.
  intros Hinv Hsub. apply (queue_inv_mono st); [done| |].
  - intros path. by rewrite pending_at_write_components.
  - intros path. rewrite components_at_write_components.
    case_decide; by subst.
Qed.

Lemma queue_inv_pending st key :
  queue_inv st → key ∈ get_component_refresh_queue st →
  key = FULL_PAGE ∨ key ∈ keys_view (get_components st).
Proof. intros Hinv. apply Hinv. Qed.

Lemma queue_inv_clear_component_refresh_queue key st :
  queue_inv st → queue_inv (clear_component_refresh_queue key st).
Proof.
  intros Hinv. rewrite clear_component_refresh_queue_eq.
  apply queue_inv_set_update_required; [done|].
  intros k [Hk _]%elem_of_difference. by apply queue_inv_pending.
Qed.

Lemma queue_inv_clear_component_refresh_queue_all st :
  queue_inv st → queue_inv (clear_component_refresh_queue_all st).
Proof.
  intros Hinv. rewrite clear_component_refresh_queue_all_eq.
  apply queue_inv_set_update_required; [done | set_solver].
Qed.

Lemma queue_inv_root_reset st :
  queue_inv st →
  queue_inv (clear_component_refresh_queue_all (clear_components st)).
Proof.
  intros Hinv path key. rewrite clear_component_refresh_queue_all_eq.
  rewrite pending_at_set_update_required, components_at_set_update_required.
  case_decide as Hp; [set_solver|].
  unfold clear_components, pending_at, components_at.
  rewrite shelf_at_with_app_db, decide_False by done. apply Hinv.
Qed.

Lemma queue_inv_reconcile before st :
  queue_inv st →
  queue_inv (final_state (reconcile before (get_components st) st)).
Proof.
  intros Hinv.
  destruct (reconcile_final_state before (get_components st) st) as (q & -> & Hq).
  apply queue_inv_set_update_required; [done|]. intros key Hin.
  apply Hq in Hin as [[Hin|Hin]%elem_of_union|Hin]%elem_of_union.
  - by apply queue_inv_pending.
  - left. by apply elem_of_singleton in Hin.
  - right. by apply keys_view_strip_html.
Qed.

Lemma get_components_write_components cs st :
  get_components (write_components cs st) = cs.
Proof.
  rewrite get_components_eq. unfold write_components at 1.
  rewrite get_app_db_path_with_app_db, components_at_write_components.
  by rewrite decide_True.
Qed.

Lemma queue_inv_run_user_script st :
  queue_inv st → queue_inv (final_state (run_user_script st)).
Proof.
  intros Hinv. destruct (context_hs_user_app_db_path st) as [path|] eqn:Hctx;
    [|unfold run_user_script; by rewrite Hctx].
  rewrite (run_user_script_eq _ _ Hctx).
  pose proof (compile_user_code_frame st) as (_ & _ & Hp & Hk & _).
  assert (queue_inv (final_state (compile_user_code st))) as Hinv1.
  { apply (queue_inv_mono st); [done | | done]. intros p. by rewrite Hp. }
  destruct (compile_user_code st) as [[] st1|e st1]; simpl in *; [|done].
  assert (queue_inv (write_components (get_components st1) st1)) as Hinv2
    by by apply queue_inv_write_components.
  pose proof (queue_inv_reconcile (get_components st) _ Hinv2) as Hinv3.
  by rewrite get_components_write_components in Hinv3.
Qed.

Lemma queue_inv_value_changed key form query st :
  queue_inv st →
  queue_inv (final_state (func_for_component_value_changed key form query st)).
Proof.
  intros Hinv. unfold func_for_component_value_changed.
  destruct (truthy_opt form || truthy_opt query); [|done].
  destruct (od_get (get_components st) key) as [record|]; [|done]. simpl.
  eapply queue_inv_shelves; [done|].
  apply queue_inv_write_components; [done|].
  rewrite keys_view_od_set. set_solver.
Qed.

Lemma queue_inv_call_next request st :
  queue_inv st → queue_inv (final_state (call_next request st)).
Proof.
  intros Hinv. unfold call_next. destruct (route request); simpl.
  - unfold root. destruct (context_hs_user_app_db_path st); [|done].
    by apply queue_inv_clear_component_refresh_queue_all.
  - unfold should_components_update. case_decide; [|done].
    by apply queue_inv_clear_component_refresh_queue_all.
  - unfold func_for_component.
    destruct (context_hs_user_app_db_path st); [|done].
    destruct (od_get (get_components st) component_key) as [attr|]; [|done].
    destruct (od_get attr "component_key") as [key|]; [|done].
    assert (queue_inv (clear_component_refresh_queue key st))
      by by apply queue_inv_clear_component_refresh_queue.
    destruct (truthy key && truthy_opt (od_get attr "label")); [|done].
    by destruct (od_get attr "component_type"), (od_get attr "label").
  - by apply queue_inv_value_changed.
  - done.
Qed.

Lemma queue_inv_before_call_next request st :
  queue_inv st → queue_inv (final_state (before_call_next request st)).
Proof.
  intros Hinv. unfold before_call_next.
  set (st1 := set_context _ st).
  assert (queue_inv st1) as Hinv1 by by eapply queue_inv_shelves.
  destruct (route request);
    try (destruct (_queue_user_script_rerun st1);
         [by apply queue_inv_run_user_script | done]).
  apply queue_inv_run_user_script. by apply queue_inv_root_reset.
Qed.

Lemma queue_inv_evaluate_user_code_middleware request st :
  queue_inv st →
  queue_inv (final_state (evaluate_user_code_middleware request st)).
Proof.
  intros Hinv. unfold evaluate_user_code_middleware, bind.
  pose proof (queue_inv_before_call_next request st Hinv) as H1.
  destruct (before_call_next request st) as [[] st1|e st1]; simpl in *; [|done].
  by apply queue_inv_call_next.
Qed.

(** C8, amended.  The queue invariant is kept by a script run with its
    reconciliation, by a value change, by a dequeue of one key or of all,
    by the reset of the root route, by the processing of a whole request,
    and by an enqueue of the sentinel or of a key that is stored among the
    components. *)
Theorem queue_inv_preserved st :
  queue_inv st →
  queue_inv (final_state (run_user_script st)) ∧
  (∀ key form query,
     queue_inv (final_state (func_for_component_value_changed key form query st))) ∧
  (∀ key, key = FULL_PAGE ∨ key ∈ keys_view (get_components st) →
     queue_inv (schedule_component_refresh key st)) ∧
  (∀ key, queue_inv (clear_component_refresh_queue key st)) ∧
  queue_inv (clear_component_refresh_queue_all st) ∧
  queue_inv (clear_component_refresh_queue_all (clear_components st)) ∧
  (∀ request,
     queue_inv (final_state (evaluate_user_code_middleware request st))).
Proof.
  intros Hinv. split; [by apply queue_inv_run_user_script|].
  split; [intros; by apply queue_inv_value_changed|].
  split.
  { intros key Hkey. rewrite schedule_component_refresh_eq.
    apply queue_inv_set_update_required; [done|].
    intros k [Hk|Hk]%elem_of_union; [by apply queue_inv_pending|].
    by apply elem_of_singleton in Hk as ->. }
  split; [intros; by apply queue_inv_clear_component_refresh_queue|].
  split; [by apply queue_inv_clear_component_refresh_queue_all|].
  split; [by apply queue_inv_root_reset|].
  intros. by apply queue_inv_evaluate_user_code_middleware.
Qed.

(** ** Requests *)

Lemma reconcile_raises before after st :
  raises (reconcile before after st) = None ∨
  raises (reconcile before after st) = Some KeyError.
Proof.
  destruct (decide (keys_view (strip_html before) = keys_view (strip_html after)))
    as [Heq|Hne].
  - rewrite (reconcile_keys_equal _ _ _ Heq). simpl.
    destruct (scheduled_by_components _ _).2; auto.
  - rewrite (reconcile_keys_differ _ _ _ Hne). auto.
Qed.

Lemma reconcile_globals before after st :
  let st' := final_state (reconcile before after st) in
  context_hs_user_app_db_path st' = context_hs_user_app_db_path st ∧
  _queue_user_script_rerun st' = _queue_user_script_rerun st.
Proof.
  destruct (reconcile_final_state before after st) as (q & Hq & _).
  simpl. by rewrite Hq.
Qed.

Lemma run_user_script_globals st :
  let st' := final_state (run_user_script st) in
  context_hs_user_app_db_path st' = context_hs_user_app_db_path st ∧
  (is_Some (context_hs_user_app_db_path st) →
     _queue_user_script_rerun st' = false) ∧
  raises (run_user_script st) ≠ Some AssertionError ∧
  (is_Some (context_hs_user_app_db_path st) →
     raises (run_user_script st) ≠ Some AttributeError).
Proof.
  simpl. destruct (context_hs_user_app_db_path st) as [path|] eqn:Hctx.
  - rewrite (run_user_script_eq _ _ Hctx).
    pose proof (compile_user_code_frame st) as (Hc & Hf & _).
    assert (raises (compile_user_code st) = None ∨
            raises (compile_user_code st) = Some ScriptError) as Hr.
    { rewrite compile_user_code_eq. simpl.
      destruct (script_run st) as [|? [|]]; auto. }
    destruct (compile_user_code st) as [[] st1|e st1]; simpl in *.
    + pose proof (reconcile_globals (get_components st) (get_components st1)
                    (write_components (get_components st1) st1)) as [Hc' Hf'].
      pose proof (reconcile_raises (get_components st) (get_components st1)
                    (write_components (get_components st1) st1)) as Hr'.
      simpl in *. rewrite Hc', Hf', Hc, Hf.
      repeat split; try done; destruct Hr' as [-> | ->]; done.
    + rewrite Hctx in Hc. destruct Hr as [[=]|[= ->]]. done.
  - unfold run_user_script. rewrite Hctx. simpl. rewrite Hctx.
    repeat split; done.
Qed.

Lemma before_call_next_context request st :
  context_hs_user_app_db_path (final_state (before_call_next request st)) =
    Some (hs_data_path (hs_user_id request)) ∧
  raises (before_call_next request st) ≠ Some AttributeError.
Proof.
  unfold before_call_next. set (st1 := set_context _ st).
  assert (∀ st2, context_hs_user_app_db_path st2 =
                   Some (hs_data_path (hs_user_id request)) →
            context_hs_user_app_db_path (final_state (run_user_script st2)) =
              Some (hs_data_path (hs_user_id request)) ∧
            raises (run_user_script st2) ≠ Some AttributeError) as Hrun.
  { intros st2 Hctx.
    pose proof (run_user_script_globals st2) as (Hc & _ & _ & Hr). simpl in *.
    rewrite Hc, Hctx. split; [done|]. apply Hr. by rewrite Hctx. }
  destruct (route request);
    try (destruct (_queue_user_script_rerun st1); [by apply Hrun | done]).
  by apply Hrun.
Qed.

(** C10. The rerun flag belongs to the process, not to a session.  Once a
    value change of any visitor has been served, the flag is set, and the
    next request that is not for the root route, whatever identity it
    presents, runs the user script under that identity before its handler,
    which clears the flag; with the flag clear the same request would have
    run no script. *)
Theorem rerun_flag_is_process_wide request_a key form query st response st1 :
  route request_a = PostValueChanged key form query →
  evaluate_user_code_middleware request_a st = Ok response st1 →
  _queue_user_script_rerun st1 = true ∧
  ∀ request_b, route request_b ≠ GetRoot →
    before_call_next request_b st1 =
      run_user_script (set_context (hs_data_path (hs_user_id request_b)) st1) ∧
    _queue_user_script_rerun (final_state (before_call_next request_b st1)) = false ∧
    before_call_next request_b (set_queue_user_script_rerun false st1) =
      Ok tt (set_context (hs_data_path (hs_user_id request_b))
               (set_queue_user_script_rerun false st1)).
Proof.
  intros Hroute Hserve.
  assert (_queue_user_script_rerun st1 = true) as Hflag.
  { unfold evaluate_user_code_middleware, bind in Hserve.
    destruct (before_call_next request_a st) as [[] st0|e st0]; [|done].
    unfold call_next in Hserve. rewrite Hroute in Hserve.
    unfold func_for_component_value_changed in Hserve.
    destruct (truthy_opt form || truthy_opt query); [|done].
    destruct (od_get (get_components st0) key); [|done].
    by injection Hserve as _ <-. }
  split; [done|]. intros request_b Hb.
  assert (before_call_next request_b st1 =
          run_user_script (set_context (hs_data_path (hs_user_id request_b)) st1))
    as Hrun.
  { unfold before_call_next. destruct (route request_b); try done;
      simpl; by rewrite Hflag. }
  split; [done|]. split.
  - rewrite Hrun.
    pose proof (run_user_script_globals
                  (set_context (hs_data_path (hs_user_id request_b)) st1))
      as (_ & Hf & _).
    apply Hf. simpl. eauto.
  - unfold before_call_next. by destruct (route request_b).
Qed.

(** ** The refresh queue and the routes that drain it *)

(** X12. Enqueue and dequeue compose as set operations on the queue of the
    current shelf: a dequeue after an enqueue of the same key leaves the
    queue without it, an enqueue after a dequeue leaves it with it, two
    enqueues commute, and none of them touches the stored components. *)
Theorem refresh_queue_enqueue_dequeue key key' st :
  get_component_refresh_queue
    (clear_component_refresh_queue key (schedule_component_refresh key st)) =
    get_component_refresh_queue st ∖ {[key]} ∧
  get_component_refresh_queue
    (schedule_component_refresh key (clear_component_refresh_queue key st)) =
    get_component_refresh_queue st ∪ {[key]} ∧
  schedule_component_refresh key (schedule_component_refresh key' st) =
    schedule_component_refresh key' (schedule_component_refresh key st) ∧
  get_components
    (clear_component_refresh_queue key (schedule_component_refresh key' st)) =
    get_components st.
Proof.
  rewrite !clear_component_refresh_queue_eq, !schedule_component_refresh_eq.
  rewrite ?get_queue_set_update_required, ?set_update_required_twice,
    ?get_components_set_update_required.
  rewrite ?get_queue_set_update_required.
  generalize (get_component_refresh_queue st). intros q.
  split; [set_solver|]. split.
  { apply set_eq. intros x.
    rewrite !elem_of_union, elem_of_difference, elem_of_singleton.
    destruct (decide (x = key)); tauto. }
  split; [|done].
  f_equal. set_solver.
Qed.

(** X1. A poll never raises and never touches the stored components.
    Without a pending sentinel it changes nothing and reports the pending
    keys, so it can be repeated; with the sentinel pending it answers with a
    reload and empties the whole queue, the component keys included, so the
    next poll reports nothing. *)
Theorem should_components_update_poll st :
  ∃ response st', should_components_update st = Ok response st' ∧
    get_components st' = get_components st ∧
    (FULL_PAGE ∉ get_component_refresh_queue st →
       response = HXTrigger (get_component_refresh_queue st) ∧ st' = st) ∧
    (FULL_PAGE ∈ get_component_refresh_queue st →
       response = HXRefresh ∧ get_component_refresh_queue st' = ∅ ∧
       should_components_update st' = Ok (HXTrigger ∅) st').
Proof.
  unfold should_components_update at 1.
  destruct (decide (FULL_PAGE ∈ get_component_refresh_queue st)) as [Hin|Hnot].
  - eexists _, _. split; [done|].
    rewrite clear_component_refresh_queue_all_eq.
    rewrite get_components_set_update_required, get_queue_set_update_required.
    split; [done|]. split; [done|]. intros _. split; [done|]. split; [done|].
    unfold should_components_update.
    rewrite get_queue_set_update_required, decide_False; [done | set_solver].
  - eexists _, _. split; [done|]. split; [done|]. split; done.
Qed.

(** X2. A label request for a stored record that names its key, has a
    label and a type answers with the label, retargeted to the navigation
    exactly for the type [Nav]; it takes the key the record names off the
    queue, leaves the components alone, and asked again gives the same
    answer and the same state. *)
Theorem func_for_component_serves_label
    component_key record key label component_type st :
  is_Some (context_hs_user_app_db_path st) →
  od_get (get_components st) component_key = Some record →
  od_get record "component_key" = Some key → truthy key = true →
  od_get record "label" = Some label → truthy label = true →
  od_get record "component_type" = Some component_type →
  ∃ st', func_for_component component_key st =
           Ok (Label label (bool_decide (component_type = "Nav"))) st' ∧
    get_component_refresh_queue st' = get_component_refresh_queue st ∖ {[key]} ∧
    get_components st' = get_components st ∧
    func_for_component component_key st' =
      Ok (Label label (bool_decide (component_type = "Nav"))) st'.
Proof.
  intros [path Hctx] Hrec Hkey Htk Hlabel Htl Htype.
  assert (∀ st0, context_hs_user_app_db_path st0 = Some path →
            get_components st0 = get_components st →
            func_for_component component_key st0 =
            Ok (Label label (bool_decide (component_type = "Nav")))
               (clear_component_refresh_queue key st0)) as Hserve.
  { intros st0 Hctx0 Hcs. unfold func_for_component.
    rewrite Hctx0, Hcs, Hrec, Hkey, Htk, Hlabel, Htype. simpl. by rewrite Htl. }
  exists (clear_component_refresh_queue key st).
  split; [by apply Hserve|].
  rewrite clear_component_refresh_queue_eq, get_queue_set_update_required,
    get_components_set_update_required.
  split; [done|]. split; [done|].
  rewrite Hserve; [|done|by rewrite get_components_set_update_required].
  f_equal. rewrite clear_component_refresh_queue_eq.
  rewrite get_queue_set_update_required, set_update_required_twice.
  f_equal. set_solver.
Qed.

(** X3. A label request for a key that is not stored raises the lookup
    error and changes nothing.  Once the record is found and names its
    key, that key is off the queue whatever follows: also when the request
    then fails on a missing or empty label, which raises the assertion
    after the dequeue. *)
Theorem func_for_component_dequeues_first component_key st :
  is_Some (context_hs_user_app_db_path st) →
  (od_get (get_components st) component_key = None →
     func_for_component component_key st = Raise KeyError st) ∧
  (∀ record key,
     od_get (get_components st) component_key = Some record →
     od_get record "component_key" = Some key →
     get_component_refresh_queue (final_state (func_for_component component_key st))
       = get_component_refresh_queue st ∖ {[key]} ∧
     get_components (final_state (func_for_component component_key st))
       = get_components st ∧
     (truthy_opt (od_get record "label") = false →
        raises (func_for_component component_key st) = Some AssertionError)).
Proof.
  intros [path Hctx]. split.
  - intros Hnone. unfold func_for_component. by rewrite Hctx, Hnone.
  - intros record key Hrec Hkey. unfold func_for_component.
    rewrite Hctx, Hrec, Hkey.
    assert (get_component_refresh_queue (clear_component_refresh_queue key st)
            = get_component_refresh_queue st ∖ {[key]}) as Hq
      by by rewrite clear_component_refresh_queue_eq, get_queue_set_update_required.
    assert (get_components (clear_component_refresh_queue key st)
            = get_components st) as Hc
      by by rewrite clear_component_refresh_queue_eq,
              get_components_set_update_required.
    destruct (od_get record "label") as [label|]; simpl.
    + destruct (truthy key && truthy label) eqn:Hok; simpl; [|done].
      apply andb_true_iff in Hok as [_ Hl].
      destruct (od_get record "component_type"); simpl;
        (split; [done|]); (split; [done|]); intros; congruence.
    + rewrite andb_false_r. simpl. done.
Qed.

(** ** The value change *)

Lemma od_keys_od_set_present {V} (d : OrderedDict V) (k : string) (v : V) :
  is_Some (od_get d k) → od_keys (od_set k v d) = od_keys d.
Proof.
  unfold od_keys. induction d as [|[k' v'] d IH]; simpl.
  - by intros [? [=]].
  - destruct (decide (k' = k)) as [->|Hne]; rewrite !fmap_cons; simpl; [done|].
    intros Hsome. f_equal. by apply IH.
Qed.

(** X4. A value change for a stored key that carries a value succeeds and
    stores it: the record then reads the value back under [current_value]
    (the form's value if it has one, else the query's), its other
    attributes and the records of the other keys are as before, the keys
    keep their order, the queue is untouched and the rerun flag is set. *)
Theorem value_changed_stores_value component_key form query record st :
  od_get (get_components st) component_key = Some record →
  truthy_opt form || truthy_opt query = true →
  ∃ st', func_for_component_value_changed component_key form query st
         = Ok Success st' ∧
    (od_get (get_components st') component_key ≫= λ r, od_get r CURRENT_VALUE) =
      Some (if truthy_opt form then default "" form else default "" query) ∧
    (∀ attr, attr ≠ CURRENT_VALUE →
       (od_get (get_components st') component_key ≫= λ r, od_get r attr) =
       od_get record attr) ∧
    (∀ key, key ≠ component_key →
       od_get (get_components st') key = od_get (get_components st) key) ∧
    od_keys (get_components st') = od_keys (get_components st) ∧
    get_component_refresh_queue st' = get_component_refresh_queue st ∧
    _queue_user_script_rerun st' = true.
Proof.
  intros Hrec Hval. unfold func_for_component_value_changed.
  rewrite Hval, Hrec. eexists. split; [done|].
  set (value := if truthy_opt form then default "" form else default "" query).
  set (cs := od_set component_key (od_set CURRENT_VALUE value record)
               (get_components st)).
  assert (get_components (set_queue_user_script_rerun true (write_components cs st))
          = cs) as -> by apply get_components_write_components.
  unfold cs. repeat split.
  - rewrite od_get_od_set, decide_True by done. simpl.
    by rewrite od_get_od_set, decide_True.
  - intros attr Hattr. rewrite od_get_od_set, decide_True by done. simpl.
    by rewrite od_get_od_set, decide_False.
  - intros key Hkey. by rewrite od_get_od_set, decide_False.
  - apply od_keys_od_set_present. rewrite Hrec. eauto.
  - rewrite !get_component_refresh_queue_eq. simpl.
    apply pending_at_write_components.
Qed.

(** X5. Whatever its outcome, a value change leaves every queue as it was,
    adds, removes or reorders no key of any shelf, and leaves the two
    ambient paths alone. *)
Theorem value_changed_frame component_key form query st :
  ∀ path,
    pending_at path
      (final_state (func_for_component_value_changed component_key form query st))
      = pending_at path st ∧
    od_keys (components_at path
      (final_state (func_for_component_value_changed component_key form query st)))
      = od_keys (components_at path st) ∧
    builtins_hs_user_app_db_path
      (final_state (func_for_component_value_changed component_key form query st))
      = builtins_hs_user_app_db_path st ∧
    context_hs_user_app_db_path
      (final_state (func_for_component_value_changed component_key form query st))
      = context_hs_user_app_db_path st.
Proof.
  intros path. unfold func_for_component_value_changed.
  destruct (truthy_opt form || truthy_opt query); [|done].
  destruct (od_get (get_components st) component_key) as [record|] eqn:Hrec;
    [|done].
  simpl. split; [apply pending_at_write_components|]. split; [|done].
  change (components_at path (set_queue_user_script_rerun true ?s))
    with (components_at path s).
  rewrite components_at_write_components. case_decide as Hp; [|done].
  subst. rewrite od_keys_od_set_present; [done | rewrite Hrec; eauto].
Qed.

(** ** More on the reconciliation *)

Lemma elem_of_scheduled_by_attrs_differs key attr_before attr_next attrs key' :
  key' ∈ (scheduled_by_attrs key attr_before attr_next attrs).1 →
  key' = key ∧ ∃ attr, attr ∈ attrs ∧
                 od_get attr_before attr ≠ od_get attr_next attr.
Proof.
  induction attrs as [|attr attrs IH]; simpl; [set_solver|].
  destruct (od_get attr_before attr) as [v_before|] eqn:Hb;
    [destruct (od_get attr_next attr) as [v_next|] eqn:Hn|]; simpl;
    [|set_solver..].
  intros [H|H]%elem_of_union.
  - case_decide; [set_solver|]. apply elem_of_singleton in H as ->.
    split; [done|]. exists attr. split; [left|]. rewrite Hb, Hn. congruence.
  - destruct (IH H) as [-> (a & Ha & Hd)]. split; [done|].
    exists a. split; [by right | done].
Qed.

Lemma elem_of_scheduled_by_components_differs items proposed key :
  key ∈ (scheduled_by_components items proposed).1 →
  attr_differs items proposed key.
Proof.
  induction items as [|[key0 attr_before] items IH]; simpl; [set_solver|].
  destruct (od_get proposed key0) as [attr_next|] eqn:Hget; simpl; [|set_solver].
  assert (key ∈ (scheduled_by_attrs key0 attr_before attr_next
                   (component_attr_to_trackchanges attr_before)).1 →
          attr_differs ((key0, attr_before) :: items) proposed key) as Hhere.
  { intros [-> (attr & [? ?]%elem_of_component_attr_to_trackchanges & Hd)]
      %elem_of_scheduled_by_attrs_differs.
    exists attr_before, attr_next, attr. split; [left | done]. }
  destruct (scheduled_by_attrs key0 attr_before attr_next _) as [S ok].
  destruct ok; simpl in *; [|done].
  intros [H|H]%elem_of_union; [by apply Hhere|].
  destruct (IH H) as (rb & rn & attr & Hin & Hrest).
  exists rb, rn, attr. split; [by right | done].
Qed.

(** X11. Whether it returns or raises, the reconciliation puts a key into
    the queue only for a reason: the key was pending already, or it is the
    sentinel and the key sets differ, or some tracked attribute of its
    record differs.  It changes nothing but the queue of the current
    shelf. *)
Theorem reconcile_enqueues_only_changes before after st :
  (∀ key,
     key ∈ get_component_refresh_queue (final_state (reconcile before after st)) →
     key ∈ get_component_refresh_queue st ∨
     (key = FULL_PAGE ∧
      keys_view (strip_html before) ≠ keys_view (strip_html after)) ∨
     attr_differs (strip_html before) (strip_html after) key) ∧
  get_components (final_state (reconcile before after st)) = get_components st ∧
  (∀ path, path ≠ get_app_db_path st →
     shelf_at path (final_state (reconcile before after st)) = shelf_at path st) ∧
  builtins_hs_user_app_db_path (final_state (reconcile before after st)) =
    builtins_hs_user_app_db_path st ∧
  context_hs_user_app_db_path (final_state (reconcile before after st)) =
    context_hs_user_app_db_path st ∧
  _queue_user_script_rerun (final_state (reconcile before after st)) =
    _queue_user_script_rerun st.
Proof.
  assert (∀ q path, path ≠ get_app_db_path st →
            shelf_at path (set_update_required q st) = shelf_at path st) as Hframe.
  { intros q path Hne. unfold set_update_required.
    by rewrite shelf_at_with_app_db, decide_False. }
  destruct (decide (keys_view (strip_html before) = keys_view (strip_html after)))
    as [Heq|Hne].
  - rewrite (reconcile_keys_equal _ _ _ Heq). simpl.
    assert (∀ q, final_state
              ((if (scheduled_by_components (strip_html before) (strip_html after)).2
                then Ok tt else Raise KeyError) (set_update_required q st))
            = set_update_required q st) as ->
      by (intros q; by destruct (scheduled_by_components _ _).2).
    rewrite get_queue_set_update_required, get_components_set_update_required.
    split; [|split; [done|split; [by apply Hframe|done]]].
    intros key [[Hin _]%elem_of_difference|Hin]%elem_of_union; [by left|].
    right. right. by apply elem_of_scheduled_by_components_differs.
  - rewrite (reconcile_keys_differ _ _ _ Hne). simpl.
    rewrite schedule_component_refresh_eq.
    rewrite get_queue_set_update_required, get_components_set_update_required.
    split; [|split; [done|split; [by apply Hframe|done]]].
    intros key [Hin|Hin%elem_of_singleton]%elem_of_union; [by left|].
    right. by left.
Qed.

Lemma od_get_NoDup {V} (d : OrderedDict V) (k : string) (v : V) :
  NoDup (od_keys d) → (k, v) ∈ d → od_get d k = Some v.
Proof.
  unfold od_keys. induction d as [|[k' v'] d IH]; simpl.
  - intros _ H. by apply elem_of_nil in H.
  - intros [Hnot Hnd]%NoDup_cons [[= -> ->]|Hin]%elem_of_cons.
    + by rewrite decide_True.
    + rewrite decide_False; [by apply IH|].
      intros ->. apply Hnot. apply list_elem_of_fmap. by exists (k, v).
Qed.

Lemma scheduled_by_attrs_same key record attrs :
  (∀ attr, attr ∈ attrs → is_Some (od_get record attr)) →
  scheduled_by_attrs key record record attrs = (∅, true).
Proof.
  induction attrs as [|attr attrs IH]; simpl; [done|]. intros Hsome.
  destruct (Hsome attr) as [v Hv]; [left|]. rewrite Hv.
  rewrite IH by (intros a Ha; apply Hsome; by right). simpl.
  rewrite decide_True by done. by rewrite union_empty_l_L.
Qed.

Lemma scheduled_by_components_same items proposed :
  (∀ key record, (key, record) ∈ items → od_get proposed key = Some record) →
  scheduled_by_components items proposed = (∅, true).
Proof.
  induction items as [|[key record] items IH]; simpl; [done|]. intros Hsame.
  rewrite (Hsame key record) by left.
  rewrite scheduled_by_attrs_same.
  - simpl. rewrite IH by (intros k r Hin; apply Hsame; by right). simpl.
    by rewrite union_empty_l_L.
  - intros attr [? _]%elem_of_component_attr_to_trackchanges.
    by apply od_keys_is_Some.
Qed.

Lemma NoDup_od_keys_strip_html cs :
  NoDup (od_keys cs) → NoDup (od_keys (strip_html cs)).
Proof.
  unfold od_keys, strip_html. intros Hnd. eapply sublist_NoDup; [exact Hnd|].
  apply fmap_sublist, sublist_filter.
Qed.

(** X10. The order of the records plays no part: when the snapshot after
    the run holds the records of the snapshot before it in another order,
    the reconciliation finds the key sets equal and no attribute changed;
    it only clears the sentinel. *)
Theorem reconcile_ignores_order before after st :
  NoDup (od_keys before) → after ≡ₚ before →
  reconcile before after st =
  Ok tt (clear_component_refresh_queue FULL_PAGE st).
Proof.
  intros Hnd Hperm.
  assert (strip_html after ≡ₚ strip_html before) as Hsp
    by (unfold strip_html; by rewrite Hperm).
  assert (keys_view (strip_html before) = keys_view (strip_html after)) as Hkeys.
  { unfold keys_view, od_keys. apply set_eq. intros k.
    rewrite !elem_of_list_to_set. by rewrite Hsp. }
  rewrite (reconcile_keys_equal _ _ _ Hkeys). simpl.
  rewrite scheduled_by_components_same.
  - simpl. rewrite union_empty_r_L. by rewrite clear_component_refresh_queue_eq.
  - intros key record Hin. apply od_get_NoDup.
    + unfold od_keys. rewrite Hsp. by apply NoDup_od_keys_strip_html.
    + by rewrite Hsp.
Qed.

(** ** Paths and shelves across requests *)

Lemma startswith_slash_app a b :
  startswith "/" a = true → startswith "/" (a +:+ b) = true.
Proof. destruct a as [|c a]; simpl; [done|]. by case_decide. Qed.

Lemma startswith_slash_truthy a : startswith "/" a = true → truthy a = true.
Proof. by destruct a. Qed.

Lemma truthy_path_join a b : truthy (path_join a b) = true.
Proof.
  unfold path_join. destruct (startswith "/" b) eqn:Hb.
  - by apply startswith_slash_truthy.
  - by destruct a.
Qed.

Lemma startswith_slash_hs_data_path name :
  startswith "/" path_to_usesr_directory = true →
  startswith "/" (hs_data_path name) = true.
Proof.
  intros Hdir. unfold hs_data_path, path_join at 1.
  destruct (startswith "/" name) eqn:Hname; [done|].
  apply startswith_slash_app. unfold path_join. simpl.
  by apply startswith_slash_app.
Qed.

Lemma hs_data_path_absolute name :
  startswith "/" name = true → hs_data_path name = name.
Proof. intros Hname. unfold hs_data_path, path_join at 1. by rewrite Hname. Qed.

Lemma get_app_db_path_in_script name st :
  startswith "/" path_to_usesr_directory = true →
  get_app_db_path (set_builtins (hs_data_path name) st) = hs_data_path name.
Proof.
  intros Hdir. unfold get_app_db_path, set_builtins. simpl.
  unfold hs_data_path at 1. rewrite truthy_path_join.
  apply hs_data_path_absolute. by apply startswith_slash_hs_data_path.
Qed.

Lemma declared_get_app_db_path (declared : list (string * Record_)) st :
  get_app_db_path (foldl (λ st d, declare d.1 d.2 st) st declared) =
  get_app_db_path st.
Proof.
  destruct (declared_frame declared st) as (Hb & Hc & _). simpl in *.
  unfold get_app_db_path. by rewrite Hb, Hc.
Qed.

(** A run of the script under the context path of an identity reads and
    writes no other shelf than the one of that identity. *)
Lemma run_user_script_other_shelves name st path :
  startswith "/" path_to_usesr_directory = true →
  context_hs_user_app_db_path st = Some (hs_data_path name) →
  path ≠ hs_data_path name →
  components_at path (final_state (run_user_script st)) = components_at path st ∧
  pending_at path (final_state (run_user_script st)) = pending_at path st.
Proof.
  intros Hdir Hctx Hpath. rewrite (run_user_script_eq _ _ Hctx).
  assert (components_at path (final_state (compile_user_code st))
            = components_at path st ∧
          pending_at path (final_state (compile_user_code st))
            = pending_at path st ∧
          (raises (compile_user_code st) = None →
             get_app_db_path (final_state (compile_user_code st))
               = hs_data_path name)) as (Hc & Hp & Hpath1).
  { rewrite compile_user_code_eq. simpl. rewrite Hctx. simpl.
    destruct (script_run st) as [|declared raised]; simpl; [done|].
    set (st_exec := set_builtins (hs_data_path name)
                      (set_queue_user_script_rerun false st)).
    destruct (declared_frame declared st_exec) as (_ & _ & _ & Hp & Ho & _).
    simpl in *.
    assert (get_app_db_path st_exec = hs_data_path name) as Hexec
      by by apply get_app_db_path_in_script.
    assert (final_state ((if raised then Raise ScriptError else Ok tt)
              (foldl (λ st d, declare d.1 d.2 st) st_exec declared))
            = foldl (λ st d, declare d.1 d.2 st) st_exec declared) as ->
      by by destruct raised.
    rewrite Hp, Ho by by rewrite Hexec.
    split; [done|]. split; [done|]. intros _.
    by rewrite declared_get_app_db_path. }
  destruct (compile_user_code st) as [[] st1|e st1]; simpl in *; [|done].
  specialize (Hpath1 eq_refl).
  destruct (reconcile_final_state (get_components st) (get_components st1)
              (write_components (get_components st1) st1)) as (q & -> & _).
  rewrite components_at_set_update_required, pending_at_set_update_required.
  change (get_app_db_path (write_components (get_components st1) st1))
    with (get_app_db_path st1).
  rewrite Hpath1, decide_False by done.
  rewrite components_at_write_components, pending_at_write_components.
  by rewrite Hpath1, decide_False.
Qed.

Lemma append_inj_r (p a b : string) : p +:+ a = p +:+ b → a = b.
Proof. induction p as [|c p IH]; simpl; [done|]. intros [= H]. auto. Qed.

Lemma plain_id_relative id : plain_id id = true → startswith "/" id = false.
Proof.
  destruct id as [|c id]; [done|]. unfold plain_id. simpl.
  intros [Hc _]%andb_true_iff. case_decide as Heq; [|done].
  subst c. by vm_compute in Hc.
Qed.

Lemma hs_data_path_plain_inj a b :
  plain_id a = true → plain_id b = true →
  hs_data_path a = hs_data_path b → a = b.
Proof.
  intros Ha%plain_id_relative Hb%plain_id_relative.
  unfold hs_data_path, path_join at 1 3. rewrite Ha, Hb.
  intros H%append_inj_r. by apply (append_inj_r "/").
Qed.

(** X8. With the process started in an absolute directory of plain name,
    a run of the script for a request of a plain identity (letters and
    digits, as the drawn ones are) writes the shelf of that identity only:
    the components and the queue of the shelf of every other plain
    identity are as before, whether the run returns or raises.  On these
    names the path the script text carries is the context's path itself. *)
Theorem run_user_script_writes_identity_shelf name st :
  startswith "/" path_to_usesr_directory = true →
  plain_path path_to_usesr_directory = true →
  plain_id name = true →
  context_hs_user_app_db_path st = Some (hs_data_path name) →
  ∀ other, plain_id other = true → other ≠ name →
    components_at (hs_data_path other) (final_state (run_user_script st)) =
      components_at (hs_data_path other) st ∧
    pending_at (hs_data_path other) (final_state (run_user_script st)) =
      pending_at (hs_data_path other) st.
Proof.
  intros Hdir _ Hname Hctx other Hother Hne.
  apply (run_user_script_other_shelves name); try done.
  intros Heq. apply Hne. by apply hs_data_path_plain_inj.
Qed.

(** X9. While the path the last script run stored in [builtins] is in
    place and no rerun is due, a poll is answered from the shelf of that
    path, whatever identity the request presents: the answer is a function
    of that shelf's queue alone. *)
Theorem poll_answers_from_last_run_shelf request b st :
  builtins_hs_user_app_db_path st = Some b → truthy b = true →
  _queue_user_script_rerun st = false → route request = GetUpdate →
  response_of (evaluate_user_code_middleware request st) =
  Some (if decide (FULL_PAGE ∈ pending_at (hs_data_path b) st)
        then HXRefresh else HXTrigger (pending_at (hs_data_path b) st)).
Proof.
  intros Hb Htb Hflag Hroute.
  unfold evaluate_user_code_middleware, bind, before_call_next, call_next.
  rewrite Hroute. simpl. rewrite Hflag. unfold should_components_update.
  assert (get_component_refresh_queue
            (set_context (hs_data_path (hs_user_id request)) st)
          = pending_at (hs_data_path b) st) as ->.
  { rewrite get_component_refresh_queue_eq. unfold get_app_db_path. simpl.
    by rewrite Hb, Htb. }
  by case_decide.
Qed.

(** X15. A run is not retried: whatever its outcome, also when the script
    or the comparison raised, the flag is clear afterwards and the next
    request off the root route runs no script. *)
Theorem run_user_script_not_retried st :
  is_Some (context_hs_user_app_db_path st) →
  _queue_user_script_rerun (final_state (run_user_script st)) = false ∧
  ∀ request, route request ≠ GetRoot →
    before_call_next request (final_state (run_user_script st)) =
    Ok tt (set_context (hs_data_path (hs_user_id request))
             (final_state (run_user_script st))).
Proof.
  intros Hctx.
  destruct (run_user_script_globals st) as (_ & Hflag & _). simpl in Hflag.
  specialize (Hflag Hctx). split; [done|]. intros request Hroute.
  unfold before_call_next. destruct (route request); try done;
    simpl; by rewrite Hflag.
Qed.

(** X14. The construction of the application resets the common shelf only:
    every other shelf on disk is as it was found, so the stored sessions
    outlive a restart; and with the flag set by the constructor the first
    request, whatever its route, runs the script. *)
Theorem init_resets_common_shelf_only fs :
  get_app_db_path (__init__ fs) = hs_data_path "main.db" ∧
  get_components (__init__ fs) = [] ∧
  get_component_refresh_queue (__init__ fs) = ∅ ∧
  (∀ path, path ≠ hs_data_path "main.db" →
     shelf_at path (__init__ fs) = default empty_shelf (fs !! path)) ∧
  (∀ request, route request ≠ GetRoot →
     before_call_next request (__init__ fs) =
     run_user_script
       (set_context (hs_data_path (hs_user_id request)) (__init__ fs))).
Proof.
  unfold __init__. rewrite clear_component_refresh_queue_all_eq.
  split; [done|].
  rewrite get_components_set_update_required, get_queue_set_update_required.
  split; [apply get_components_write_components|]. split; [done|]. split.
  - intros path Hpath. unfold set_update_required, clear_components.
    rewrite !shelf_at_with_app_db, !decide_False; done.
  - intros request Hroute. unfold before_call_next.
    by destruct (route request).
Qed.

(** X6. A root request that is served leaves no pending refresh: the queue
    of the current shelf is empty, the flag is clear, and the page shows
    the components stored after the run. *)
Theorem root_request_leaves_empty_queue request st response st' :
  route request = GetRoot →
  evaluate_user_code_middleware request st = Ok response st' →
  get_component_refresh_queue st' = ∅ ∧
  _queue_user_script_rerun st' = false ∧
  response = MainPage (get_components st').
Proof.
  intros Hroute Hserve.
  unfold evaluate_user_code_middleware, bind in Hserve.
  pose proof (before_call_next_context request st) as [Hctx _].
  assert (_queue_user_script_rerun (final_state (before_call_next request st))
          = false) as Hflag.
  { unfold before_call_next. rewrite Hroute.
    destruct (run_user_script_globals
                (clear_component_refresh_queue_all
                   (clear_components
                      (set_context (hs_data_path (hs_user_id request)) st))))
      as (_ & Hf & _).
    apply Hf. simpl. eauto. }
  destruct (before_call_next request st) as [[] st1|e st1]; [|done].
  simpl in *. unfold call_next, root in Hserve. rewrite Hroute, Hctx in Hserve.
  injection Hserve as <- <-.
  rewrite clear_component_refresh_queue_all_eq, get_queue_set_update_required.
  done.
Qed.

(** The reset that precedes the run of a root request acts on the shelf
    whose path is in [builtins]. *)
Lemma root_request_resets_builtins_shelf request b st :
  startswith "/" path_to_usesr_directory = true →
  builtins_hs_user_app_db_path st = Some b → truthy b = true →
  route request = GetRoot →
  hs_data_path b ≠ hs_data_path (hs_user_id request) →
  components_at (hs_data_path b)
    (final_state (evaluate_user_code_middleware request st)) = [] ∧
  pending_at (hs_data_path b)
    (final_state (evaluate_user_code_middleware request st)) = ∅.
Proof.
  intros Hdir Hb Htb Hroute Hne.
  set (st0 := set_context (hs_data_path (hs_user_id request)) st).
  assert (get_app_db_path st0 = hs_data_path b) as Hpath0
    by (unfold get_app_db_path; simpl; by rewrite Hb, Htb).
  set (st_reset := clear_component_refresh_queue_all (clear_components st0)).
  assert (components_at (hs_data_path b) st_reset = [] ∧
          pending_at (hs_data_path b) st_reset = ∅) as [Hc0 Hp0].
  { unfold st_reset. rewrite clear_component_refresh_queue_all_eq.
    rewrite components_at_set_update_required, pending_at_set_update_required.
    change (get_app_db_path (clear_components st0)) with (get_app_db_path st0).
    rewrite Hpath0, decide_True by done. split; [|done].
    unfold components_at, clear_components.
    by rewrite shelf_at_with_app_db, Hpath0, decide_True. }
  destruct (run_user_script_other_shelves (hs_user_id request) st_reset
              (hs_data_path b) Hdir eq_refl Hne) as [Hc1 Hp1].
  rewrite Hc0 in Hc1. rewrite Hp0 in Hp1.
  unfold evaluate_user_code_middleware, bind.
  assert (before_call_next request st = run_user_script st_reset) as ->
    by (unfold before_call_next; by rewrite Hroute).
  destruct (run_user_script st_reset) as [[] st1|e st1]; simpl in *; [|done].
  unfold call_next, root. rewrite Hroute.
  destruct (context_hs_user_app_db_path st1); simpl; [|done].
  rewrite clear_component_refresh_queue_all_eq.
  rewrite components_at_set_update_required, pending_at_set_update_required.
  split; [done|]. by case_decide.
Qed.

(** X7. A root request of one identity resets the shelf of another.  With
    plain names throughout (directory absolute; identities of letters and
    digits): when the last script run was for identity [a], so that its
    path is the one left in [builtins], a root request of a different
    identity leaves the components and the queue of [a]'s shelf empty. *)
Theorem root_request_resets_last_run_shelf request a st :
  startswith "/" path_to_usesr_directory = true →
  plain_path path_to_usesr_directory = true →
  plain_id a = true → plain_id (hs_user_id request) = true →
  builtins_hs_user_app_db_path st = Some (hs_data_path a) →
  route request = GetRoot →
  a ≠ hs_user_id request →
  components_at (hs_data_path a)
    (final_state (evaluate_user_code_middleware request st)) = [] ∧
  pending_at (hs_data_path a)
    (final_state (evaluate_user_code_middleware request st)) = ∅.
Proof.
  intros Hdir _ Ha Hid Hb Hroute Hne.
  assert (hs_data_path (hs_data_path a) = hs_data_path a) as Hidem
    by by apply hs_data_path_absolute, startswith_slash_hs_data_path.
  rewrite <- Hidem.
  apply root_request_resets_builtins_shelf; try done.
  - unfold hs_data_path. apply truthy_path_join.
  - rewrite Hidem. intros Heq. apply Hne. by apply hs_data_path_plain_inj.
Qed.

(** ** A rerun for the same identity *)

Lemma get_components_declared (declared : list (string * Record_)) st :
  get_components (foldl (λ st d, declare d.1 d.2 st) st declared) =
  foldl (λ cs d, od_set d.1 d.2 cs) (get_components st) declared.
Proof.
  revert st. induction declared as [|[k r] declared IH]; intros st; simpl;
    [done|].
  rewrite IH. unfold declare. by rewrite get_components_write_components.
Qed.

Lemma keys_view_foldl_od_set {V} (declared : list (string * V)) (cs : OrderedDict V) :
  keys_view (foldl (λ cs d, od_set d.1 d.2 cs) cs declared) =
  keys_view cs ∪ list_to_set declared.*1.
Proof.
  revert cs. induction declared as [|[k r] declared IH]; intros cs; simpl.
  - by rewrite union_empty_r_L.
  - rewrite IH, keys_view_od_set. set_solver.
Qed.

Lemma elem_of_keys_view_strip_html key cs :
  key ∈ keys_view (strip_html cs) ↔
  key ∈ keys_view cs ∧ py_in HS_HTML_CONSTANT key = false.
Proof.
  unfold keys_view, od_keys, strip_html.
  rewrite !elem_of_list_to_set, !list_elem_of_fmap. split.
  - intros ([k v] & -> & [Hvis Hin]%list_elem_of_filter). simpl in *.
    split; [|done]. by exists (k, v).
  - intros [([k v] & -> & Hin) Hvis]. simpl in *. exists (k, v).
    split; [done|]. by apply list_elem_of_filter.
Qed.

(** X13. With plain names (directory absolute; identity of letters and
    digits), a rerun for the identity whose shelf is the current one, with a
    script that runs to its end: the stored records are the old ones
    overwritten or extended by the declarations in their order, so no key
    is ever dropped.  A reload is queued when the script declared a key
    that was not stored and is not one of the HTML helpers; otherwise the
    key sets are equal, and a key is queued only if it was pending or a
    tracked attribute of its record changed: a component the script no
    longer declares stays stored and goes unnoticed. *)
Theorem rerun_detects_new_keys_only name declared st :
  startswith "/" path_to_usesr_directory = true →
  plain_path path_to_usesr_directory = true →
  plain_id name = true →
  context_hs_user_app_db_path st = Some (hs_data_path name) →
  get_app_db_path st = hs_data_path name →
  script_run st = Ran declared false →
  get_components (final_state (run_user_script st)) =
    foldl (λ cs d, od_set d.1 d.2 cs) (get_components st) declared ∧
  keys_view (get_components st) ⊆
    keys_view (get_components (final_state (run_user_script st))) ∧
  ((∃ key, key ∈ declared.*1 ∧ py_in HS_HTML_CONSTANT key = false ∧
           key ∉ keys_view (get_components st)) →
     raises (run_user_script st) = None ∧
     get_component_refresh_queue (final_state (run_user_script st)) =
       get_component_refresh_queue st ∪ {[FULL_PAGE]}) ∧
  ((∀ key, key ∈ declared.*1 → py_in HS_HTML_CONSTANT key = false →
           key ∈ keys_view (get_components st)) →
     ∀ key,
       key ∈ get_component_refresh_queue (final_state (run_user_script st)) →
       (key ∈ get_component_refresh_queue st ∧ key ≠ FULL_PAGE) ∨
       attr_differs (strip_html (get_components st))
         (strip_html (foldl (λ cs d, od_set d.1 d.2 cs) (get_components st)
                        declared)) key).
Proof.
  intros Hdir _ _ Hctx Hpath Hscript.
  set (cs := get_components st).
  set (cs' := foldl (λ cs d, od_set d.1 d.2 cs) cs declared).
  set (st_exec := set_builtins (hs_data_path name)
                    (set_queue_user_script_rerun false st)).
  set (st1 := foldl (λ st d, declare d.1 d.2 st) st_exec declared).
  assert (get_app_db_path st_exec = hs_data_path name) as Hexec
    by by apply get_app_db_path_in_script.
  assert (get_app_db_path st1 = hs_data_path name) as Hpath1
    by (unfold st1; by rewrite declared_get_app_db_path).
  assert (get_components st1 = cs') as Hcs1.
  { unfold st1. rewrite get_components_declared. unfold cs', cs. f_equal.
    unfold get_components. by rewrite Hexec, Hpath. }
  assert (get_component_refresh_queue (write_components cs' st1)
          = get_component_refresh_queue st) as Hq2.
  { rewrite !get_component_refresh_queue_eq.
    change (get_app_db_path (write_components cs' st1))
      with (get_app_db_path st1).
    rewrite pending_at_write_components, Hpath1, Hpath.
    destruct (declared_frame declared st_exec) as (_ & _ & _ & Hp & _).
    simpl in Hp. unfold st1. by rewrite Hp. }
  assert (run_user_script st = reconcile cs cs' (write_components cs' st1))
    as Hrun.
  { rewrite (run_user_script_eq _ _ Hctx), compile_user_code_eq. simpl.
    rewrite Hscript, Hctx. simpl. fold st_exec. fold st1. by rewrite Hcs1. }
  rewrite Hrun.
  destruct (reconcile_final_state cs cs' (write_components cs' st1))
    as (q & Hfinal & _).
  assert (get_components (final_state (reconcile cs cs' (write_components cs' st1)))
          = cs') as Hcsf.
  { rewrite Hfinal, get_components_set_update_required.
    apply get_components_write_components. }
  assert (keys_view (strip_html cs) = keys_view (strip_html cs') ↔
          ∀ key, key ∈ declared.*1 → py_in HS_HTML_CONSTANT key = false →
                 key ∈ keys_view cs) as Hiff.
  { split.
    - intros Heq key Hin Hvis.
      assert (key ∈ keys_view (strip_html cs')) as Hk.
      { apply elem_of_keys_view_strip_html. split; [|done].
        unfold cs'. rewrite keys_view_foldl_od_set. set_solver. }
      rewrite <- Heq in Hk. by apply elem_of_keys_view_strip_html in Hk as [? _].
    - intros Hall. apply set_eq. intros key.
      rewrite !elem_of_keys_view_strip_html. unfold cs'.
      rewrite keys_view_foldl_od_set, elem_of_union, elem_of_list_to_set.
      split; [tauto|]. intros [[?|?] ?]; [done|]. split; [|done]. by apply Hall. }
  split; [done|]. split.
  { rewrite Hcsf. unfold cs'. rewrite keys_view_foldl_od_set. set_solver. }
  split.
  - intros (key & Hin & Hvis & Hnew).
    assert (keys_view (strip_html cs) ≠ keys_view (strip_html cs')) as Hne.
    { intros Heq. apply Hnew. by apply (proj1 Hiff Heq). }
    rewrite (reconcile_keys_differ _ _ _ Hne). simpl. split; [done|].
    by rewrite schedule_component_refresh_eq, get_queue_set_update_required, Hq2.
  - intros Hall key. apply Hiff in Hall.
    rewrite (reconcile_keys_equal _ _ _ Hall). simpl.
    assert (∀ q0, final_state
              ((if (scheduled_by_components (strip_html cs) (strip_html cs')).2
                then Ok tt else Raise KeyError)
                 (set_update_required q0 (write_components cs' st1)))
            = set_update_required q0 (write_components cs' st1)) as ->
      by (intros q0; by destruct (scheduled_by_components _ _).2).
    rewrite get_queue_set_update_required, Hq2.
    intros [[Hin Hfp%not_elem_of_singleton]%elem_of_difference|Hin]%elem_of_union;
      [by left|].
    right. by apply elem_of_scheduled_by_components_differs.
Qed.

(** ** The records of the HTML helpers *)

(** C3. A record whose key contains [HS_HTML_CONSTANT], as the keys of the
    HTML-building machinery do, takes no part in the reconciliation:
    writing it (new, or over a record already there) or removing it, in
    the snapshot before the run or in the one after it, leaves the outcome
    as it is, queue and raise alike; and its own key is in the queue after
    the reconciliation only if it was pending before (or is itself the
    sentinel). *)
Theorem reconcile_ignores_html_records key record before after st :
  py_in HS_HTML_CONSTANT key = true →
  reconcile (od_set key record before) after st = reconcile before after st ∧
  reconcile before (od_set key record after) st = reconcile before after st ∧
  reconcile (od_del key before) after st = reconcile before after st ∧
  reconcile before (od_del key after) st = reconcile before after st ∧
  (key ∈ get_component_refresh_queue (final_state (reconcile before after st)) →
     key ∈ get_component_refresh_queue st ∨ key = FULL_PAGE).
Proof.
  intros Hkey.
  split; [unfold reconcile; by rewrite strip_html_od_set|].
  split; [unfold reconcile; by rewrite strip_html_od_set|].
  split; [unfold reconcile; by rewrite strip_html_od_del|].
  split; [unfold reconcile; by rewrite strip_html_od_del|].
  destruct (reconcile_final_state before after st) as (q & -> & Hq).
  rewrite get_queue_set_update_required. intros Hin.
  apply Hq in Hin as [[Hin|Hin]%elem_of_union|Hin]%elem_of_union.
  - by left.
  - right. by apply elem_of_singleton in Hin.
  - apply elem_of_keys_view_strip_html in Hin as [_ Hvis]. congruence.
Qed.

(** ** The path of a request *)



End Hyperstream.

(** ** Sample runs *)

Import Sample.

Lemma queue_inv_one_shelf builtins context flag path cs q :
  (∀ key, key ∈ q → key = FULL_PAGE ∨ key ∈ keys_view cs) →
  queue_inv (mkApp builtins context flag {[ path := mkShelf (Some cs) (Some q) ]}).
Proof.
  intros Hq p key. unfold pending_at, components_at, shelf_at. simpl.
  destruct (decide (p = path)) as [->|Hne].
  - rewrite lookup_singleton_eq. simpl. apply Hq.
  - rewrite lookup_singleton_ne by done. simpl. set_solver.
Qed.

(** Scenario A of the spec: nothing before, nothing after, nothing queued. *)
Example scenario_a_empty_to_empty :
  get_component_refresh_queue dir
    (final_state (reconcile dir HS [] [] (serving false ∅))) = ∅.
Proof. by vm_compute. Qed.

(** Scenario C of the spec, as the sample run of the amended C1: a key is
    added. *)
Lemma reconcile_key_sets_differ_full_page_witness :
  keys_view (strip_html HS one_a) ≠ keys_view (strip_html HS a_then_b) ∧
  get_component_refresh_queue dir
    (final_state (reconcile dir HS one_a a_then_b (serving false {["a"]}))) =
  {["a"]} ∪ {[FULL_PAGE]}.
Proof.
  assert (keys_view (strip_html HS one_a) ≠ keys_view (strip_html HS a_then_b))
    as Hne by (vm_compute; discriminate).
  split; [exact Hne|].
  destruct (reconcile_key_sets_differ_full_page dir HS one_a a_then_b
              (serving false {["a"]}) Hne) as (_ & Hq & _).
  rewrite Hq. by vm_compute.
Defined.

(** Where C1 as stated fails: the key sets of the two snapshots differ by
    a key that contains the marker, and no sentinel is enqueued. *)
Lemma reconcile_key_sets_differ_counterexample :
  keys_view one_a ≠ keys_view a_with_box ∧
  reconcile dir HS one_a a_with_box (serving false ∅) =
    Ok tt (clear_component_refresh_queue dir FULL_PAGE (serving false ∅)) ∧
  get_component_refresh_queue dir
    (final_state (reconcile dir HS one_a a_with_box (serving false ∅))) = ∅.
Proof.
  split; [vm_compute; discriminate|]. split; by vm_compute.
Qed.

(** Scenarios B and D of the spec, as the sample run of the amended C2: the
    label of [a] changes and the stale sentinel is cleared; a change of the
    entered value alone enqueues nothing. *)
Lemma reconcile_key_sets_equal_refresh_witness :
  keys_view (strip_html HS one_a) = keys_view (strip_html HS a_relabelled) ∧
  attrs_covered (strip_html HS one_a) (strip_html HS a_relabelled) ∧
  ∃ st', reconcile dir HS one_a a_relabelled (serving false {[FULL_PAGE]}) = Ok tt st' ∧
    (∀ key, key ∈ get_component_refresh_queue dir st' ↔
       (key ∈ get_component_refresh_queue dir (serving false {[FULL_PAGE]}) ∧
        key ≠ FULL_PAGE) ∨
       attr_differs (strip_html HS one_a) (strip_html HS a_relabelled) key) ∧
    (FULL_PAGE ∉ keys_view (strip_html HS one_a) →
       FULL_PAGE ∉ get_component_refresh_queue dir st') ∧
    ((∀ key, ¬ attr_differs (strip_html HS one_a) (strip_html HS a_relabelled) key) →
       get_component_refresh_queue dir st' =
       get_component_refresh_queue dir (serving false {[FULL_PAGE]}) ∖ {[FULL_PAGE]}) ∧
    get_components dir st' = get_components dir (serving false {[FULL_PAGE]}).
Proof.
  assert (keys_view (strip_html HS one_a) = keys_view (strip_html HS a_relabelled))
    as Hkeys by (by vm_compute).
  assert (attrs_covered (strip_html HS one_a) (strip_html HS a_relabelled))
    as Hcov by (apply (scheduled_completes_iff_covered _ _ Hkeys); by vm_compute).
  split; [exact Hkeys|]. split; [exact Hcov|].
  exact (reconcile_key_sets_equal_refresh dir HS one_a a_relabelled
           (serving false {[FULL_PAGE]}) Hkeys Hcov).
Defined.

Example scenario_b_label_changes :
  get_component_refresh_queue dir
    (final_state (reconcile dir HS one_a a_relabelled (serving false {[FULL_PAGE]})))
  = {["a"]}.
Proof. by vm_compute. Qed.

Example scenario_d_value_only :
  reconcile dir HS one_a a_revalued (serving false ∅) =
  Ok tt (clear_component_refresh_queue dir FULL_PAGE (serving false ∅)) ∧
  get_component_refresh_queue dir
    (final_state (reconcile dir HS one_a a_revalued (serving false ∅))) = ∅.
Proof. by vm_compute. Qed.

(** Where C2 as stated fails.  With equal key sets, a record of [after]
    that lacks the label of the record of [before] makes the comparison
    raise, and the key whose label differs is not enqueued; a component
    keyed like the sentinel puts the sentinel into the queue when its label
    changes; and a component whose key contains the marker is not enqueued
    when its label changes. *)
Lemma reconcile_key_sets_equal_counterexample :
  (keys_view (strip_html HS one_a) = keys_view (strip_html HS a_without_label) ∧
   attr_differs (strip_html HS one_a) (strip_html HS a_without_label) "a" ∧
   raises (reconcile dir HS one_a a_without_label (serving false ∅)) = Some KeyError ∧
   get_component_refresh_queue dir
     (final_state (reconcile dir HS one_a a_without_label (serving false ∅))) = ∅) ∧
  (keys_view (strip_html HS sentinel_x) = keys_view (strip_html HS sentinel_y) ∧
   attrs_covered (strip_html HS sentinel_x) (strip_html HS sentinel_y) ∧
   raises (reconcile dir HS sentinel_x sentinel_y (serving false ∅)) = None ∧
   get_component_refresh_queue dir
     (final_state (reconcile dir HS sentinel_x sentinel_y (serving false ∅)))
   = {[FULL_PAGE]}) ∧
  (keys_view box_x = keys_view box_y ∧
   attrs_covered box_x box_y ∧
   attr_differs box_x box_y "my_hs_html_box" ∧
   raises (reconcile dir HS box_x box_y (serving false ∅)) = None ∧
   get_component_refresh_queue dir
     (final_state (reconcile dir HS box_x box_y (serving false ∅))) = ∅).
Proof.
  split; [|split].
  - split; [by vm_compute|]. split; [|by vm_compute].
    exists (text_a "x" "1"), [("component_key", "a"); ("component_type", "Text")],
      "label".
    split; [vm_compute; left|]. split; [by vm_compute|].
    split; [vm_compute; set_solver|]. split; by vm_compute.
  - assert (keys_view (strip_html HS sentinel_x) = keys_view (strip_html HS sentinel_y))
      as Hkeys by (by vm_compute).
    split; [exact Hkeys|]. split; [|by vm_compute].
    apply (scheduled_completes_iff_covered _ _ Hkeys). by vm_compute.
  - assert (keys_view box_x = keys_view box_y) as Hkeys by (by vm_compute).
    split; [exact Hkeys|]. split.
    { apply (scheduled_completes_iff_covered _ _ Hkeys). by vm_compute. }
    split; [|by vm_compute].
    exists (box "x"), (box "y"), "label".
    split; [vm_compute; left|]. split; [by vm_compute|].
    split; [vm_compute; set_solver|]. split; by vm_compute.
Qed.

(** The sample run of C3: a record of the HTML helpers is written into the
    snapshot after the run. *)
Lemma reconcile_ignores_html_records_witness :
  py_in HS "hs_html_0" = true ∧
  od_set "hs_html_0" (html_record "<form>") one_a = a_with_html ∧
  reconcile dir HS one_a a_with_html (serving false {["a"]}) =
  reconcile dir HS one_a one_a (serving false {["a"]}).
Proof.
  assert (py_in HS "hs_html_0" = true) as Hkey by (by vm_compute).
  split; [exact Hkey|]. split; [reflexivity|].
  exact (proj1 (proj2 (reconcile_ignores_html_records dir HS "hs_html_0"
                         (html_record "<form>") one_a one_a
                         (serving false {["a"]}) Hkey))).
Defined.

(** The sample run of C9: the record of [a] loses its label. *)
Lemma reconcile_raises_iff_attr_missing_witness :
  keys_view (strip_html HS one_a) = keys_view (strip_html HS a_without_label) ∧
  raises (reconcile dir HS one_a a_without_label (serving false ∅)) = Some KeyError ∧
  ∃ key attr_before attr_next attr,
    (key, attr_before) ∈ strip_html HS one_a ∧
    od_get (strip_html HS a_without_label) key = Some attr_next ∧
    attr ∈ od_keys attr_before ∧ attr ≠ CURRENT_VALUE ∧
    od_get attr_next attr = None.
Proof.
  assert (keys_view (strip_html HS one_a) = keys_view (strip_html HS a_without_label))
    as Hkeys by (by vm_compute).
  assert (raises (reconcile dir HS one_a a_without_label (serving false ∅))
          = Some KeyError) as Hraises by (by vm_compute).
  split; [exact Hkeys|]. split; [exact Hraises|].
  exact (proj1 (proj1 (reconcile_raises_iff_attr_missing dir HS one_a
                         a_without_label (serving false ∅) Hkeys)) Hraises).
Defined.

(** The sample run of C4: [a] is pending and is enqueued again. *)
Lemma schedule_component_refresh_idempotent_witness :
  "a" ∈ get_component_refresh_queue dir (serving false {["a"]}) ∧
  schedule_component_refresh dir "a" (serving false {["a"]}) = serving false {["a"]} ∧
  get_component_refresh_queue dir
    (schedule_component_refresh dir "a" (serving false {["a"]})) =
  get_component_refresh_queue dir (serving false {["a"]}).
Proof.
  assert ("a" ∈ get_component_refresh_queue dir (serving false {["a"]})) as Hin
    by (by vm_compute).
  split; [exact Hin|].
  exact (proj2 (schedule_component_refresh_idempotent dir "a"
                  (serving false {["a"]})) Hin).
Defined.

(** Scenario E of the spec, as the sample run of the amended C5. *)
Lemma value_changed_unknown_key_witness :
  od_get (get_components dir (serving false {["a"]})) "zzz" = None ∧
  func_for_component_value_changed dir "zzz" (Some "2") None (serving false {["a"]})
  = Raise KeyError (serving false {["a"]}).
Proof.
  assert (od_get (get_components dir (serving false {["a"]})) "zzz" = None)
    as Hnone by (by vm_compute).
  split; [exact Hnone|].
  exact (value_changed_unknown_key dir "zzz" (Some "2") None
           (serving false {["a"]}) Hnone).
Defined.

(** Where C5 as stated fails.  After a script run for visitor 111, a value
    change for [a] by visitor 222, whose own shelf stores no [a], succeeds
    and rewrites the record of 111; a request that carries no value fails
    on the handler's assertion; and with the rerun flag set the middleware
    reruns the script, here clearing the pending sentinel, before the
    handler raises the lookup error. *)
Lemma value_changed_unknown_key_counterexample :
  (od_get (components_at (hs_data_path dir (hs_user_id value_change_222))
             (after_run_111 ∅)) "a" = None ∧
   response_of (evaluate_user_code_middleware dir HS echo_script value_change_222
                  (after_run_111 ∅)) = Some Success ∧
   components_at path_111
     (final_state (evaluate_user_code_middleware dir HS echo_script
                     value_change_222 (after_run_111 ∅))) = a_revalued) ∧
  func_for_component_value_changed dir "zzz" None None (serving false ∅) =
    Raise AssertionError (serving false ∅) ∧
  (od_get (get_components dir (serving true {[FULL_PAGE]})) "zzz" = None ∧
   get_component_refresh_queue dir (serving true {[FULL_PAGE]}) = {[FULL_PAGE]} ∧
   raises (evaluate_user_code_middleware dir HS echo_script value_change_zzz_111
             (serving true {[FULL_PAGE]})) = Some KeyError ∧
   get_component_refresh_queue dir
     (final_state (evaluate_user_code_middleware dir HS echo_script
                     value_change_zzz_111 (serving true {[FULL_PAGE]}))) = ∅).
Proof. by vm_compute. Qed.

(** Before any request neither path is set, and [get_app_db_path] answers
    the common [main.db]; a request that presents no identity is served
    under a drawn one. *)
Example get_app_db_path_before_first_request :
  get_app_db_path dir fresh = "/srv/app/hs_data/main.db" ∧
  evaluate_user_code_middleware dir HS echo_script
    (mkRequest None "123456" GetUpdate) (mkApp None None false ∅) =
  Ok (HXTrigger ∅) (mkApp None (Some "/srv/app/hs_data/123456") false ∅).
Proof. by vm_compute. Qed.


(** The sample run of C7: the script declares [b] and raises; [a] stays
    pending and stored. *)
Lemma run_user_script_script_fails_witness :
  script_fails (script_run dir failing_script (serving true {["a"]})) ∧
  ∃ e st', run_user_script dir HS failing_script (serving true {["a"]})
           = Raise e st' ∧
    (is_Some (context_hs_user_app_db_path (serving true {["a"]})) → e = ScriptError) ∧
    (∀ request st0,
       before_call_next dir HS failing_script request st0 =
         run_user_script dir HS failing_script (serving true {["a"]}) →
       evaluate_user_code_middleware dir HS failing_script request st0 = Raise e st') ∧
    (∀ path, pending_at path st' = pending_at path (serving true {["a"]})) ∧
    (∀ path key, key ∈ keys_view (components_at path (serving true {["a"]})) →
       key ∈ keys_view (components_at path st')) ∧
    (∀ path key,
       (∀ declared raised,
          script_run dir failing_script (serving true {["a"]}) = Ran declared raised →
          key ∉ declared.*1) →
       od_get (components_at path st') key =
       od_get (components_at path (serving true {["a"]})) key).
Proof.
  assert (script_fails (script_run dir failing_script (serving true {["a"]})))
    as Hfails by (by vm_compute).
  split; [exact Hfails|].
  exact (run_user_script_script_fails dir HS failing_script
           (serving true {["a"]}) Hfails).
Defined.

Example failing_script_run :
  raises (evaluate_user_code_middleware dir HS failing_script
            (mkRequest (Some "111") "654321" GetUpdate) (serving true {["a"]}))
  = Some ScriptError ∧
  get_component_refresh_queue dir
    (final_state (run_user_script dir HS failing_script (serving true {["a"]})))
  = {["a"]} ∧
  get_components dir
    (final_state (run_user_script dir HS failing_script (serving true {["a"]})))
  = a_then_b.
Proof. by vm_compute. Qed.

(** The sample run of the amended C8, from a state with [a] stored and
    pending. *)
Lemma queue_inv_preserved_witness :
  queue_inv (serving true {["a"]}) ∧
  queue_inv (final_state (run_user_script dir HS echo_script (serving true {["a"]}))) ∧
  queue_inv (schedule_component_refresh dir FULL_PAGE (serving true {["a"]})) ∧
  queue_inv (final_state (evaluate_user_code_middleware dir HS echo_script
                            value_change_111 (serving true {["a"]}))).
Proof.
  assert (queue_inv (serving true {["a"]})) as Hinv.
  { apply queue_inv_one_shelf. intros key ->%elem_of_singleton. right.
    by vm_compute. }
  split; [exact Hinv|].
  destruct (queue_inv_preserved dir HS echo_script (serving true {["a"]}) Hinv)
    as (Hrun & _ & Hsched & _ & _ & _ & Hreq).
  split; [exact Hrun|]. split; [apply Hsched; by left | apply Hreq].
Defined.

(** Where C8 as stated fails: an enqueue takes any name, and a name that
    is neither the sentinel nor a stored key breaks the invariant. *)
Lemma queue_inv_counterexample :
  queue_inv (serving true ∅) ∧
  get_component_refresh_queue dir
    (schedule_component_refresh dir "ghost" (serving true ∅)) = {["ghost"]} ∧
  od_get (get_components dir
            (schedule_component_refresh dir "ghost" (serving true ∅))) "ghost" = None ∧
  ¬ queue_inv (schedule_component_refresh dir "ghost" (serving true ∅)).
Proof.
  split; [apply queue_inv_one_shelf; set_solver|].
  split; [by vm_compute|]. split; [by vm_compute|].
  intros Hinv. destruct (Hinv path_111 "ghost") as [Hfp|Hkey].
  - by vm_compute.
  - discriminate Hfp.
  - apply od_get_is_Some in Hkey as [r Hr]. by vm_compute in Hr.
Qed.

(** The sample run of C10: visitor 111 changes the value of [a]; the next
    poll of visitor 222 runs the script. *)
Lemma rerun_flag_is_process_wide_witness :
  route value_change_111 = PostValueChanged "a" (Some "2") None ∧
  evaluate_user_code_middleware dir HS echo_script value_change_111
    (serving false ∅) =
  Ok Success
     (mkApp None (Some path_111) true
            {[ path_111 := mkShelf (Some a_revalued) (Some ∅) ]}) ∧
  before_call_next dir HS echo_script poll_222
    (mkApp None (Some path_111) true
           {[ path_111 := mkShelf (Some a_revalued) (Some ∅) ]}) =
  run_user_script dir HS echo_script
    (set_context (hs_data_path dir (hs_user_id poll_222))
       (mkApp None (Some path_111) true
              {[ path_111 := mkShelf (Some a_revalued) (Some ∅) ]})).
Proof.
  assert (evaluate_user_code_middleware dir HS echo_script value_change_111
            (serving false ∅) =
          Ok Success
             (mkApp None (Some path_111) true
                    {[ path_111 := mkShelf (Some a_revalued) (Some ∅) ]}))
    as Hserve by (by vm_compute).
  split; [reflexivity|]. split; [exact Hserve|].
  destruct (rerun_flag_is_process_wide dir HS echo_script value_change_111
              "a" (Some "2") None (serving false ∅) Success _ eq_refl Hserve)
    as [_ Hnext].
  destruct (Hnext poll_222) as [Hrun _]; [discriminate | exact Hrun].
Defined.

(** What the poll of visitor 222 then does: the script runs under the path
    of 222, where nothing is stored yet, so [a] is declared afresh and the
    poll is answered with a reload; the flag is clear afterwards. *)
Example poll_after_value_change :
  get_components dir
    (final_state (evaluate_user_code_middleware dir HS echo_script poll_222
       (mkApp None (Some path_111) true
              {[ path_111 := mkShelf (Some a_revalued) (Some ∅) ]})))
  = one_a ∧
  _queue_user_script_rerun
    (final_state (evaluate_user_code_middleware dir HS echo_script poll_222
       (mkApp None (Some path_111) true
              {[ path_111 := mkShelf (Some a_revalued) (Some ∅) ]})))
  = false.
Proof. by vm_compute. Qed.

(** The sample run of X1: a poll with the sentinel pending, and one
    without. *)
Lemma should_components_update_poll_witness :
  FULL_PAGE ∈ get_component_refresh_queue dir (serving false {["a"; FULL_PAGE]}) ∧
  (FULL_PAGE ∉ get_component_refresh_queue dir (serving false {["a"]})) ∧
  response_of (should_components_update dir (serving false {["a"; FULL_PAGE]}))
    = Some HXRefresh ∧
  response_of (should_components_update dir (serving false {["a"]}))
    = Some (HXTrigger (get_component_refresh_queue dir (serving false {["a"]}))).
Proof.
  assert (FULL_PAGE ∈ get_component_refresh_queue dir
            (serving false {["a"; FULL_PAGE]})) as Hin by (by vm_compute).
  assert (FULL_PAGE ∉ get_component_refresh_queue dir (serving false {["a"]}))
    as Hnot by (vm_compute; set_solver).
  split; [exact Hin|]. split; [exact Hnot|]. split.
  - destruct (should_components_update_poll dir (serving false {["a"; FULL_PAGE]}))
      as (r & st' & -> & _ & _ & Hfull).
    destruct (Hfull Hin) as (-> & _). reflexivity.
  - destruct (should_components_update_poll dir (serving false {["a"]}))
      as (r & st' & -> & _ & Hnone & _).
    destruct (Hnone Hnot) as (-> & _). reflexivity.
Defined.

(** The sample run of X2: the label of [a] is asked for while [a] is
    pending. *)
Lemma func_for_component_serves_label_witness :
  is_Some (context_hs_user_app_db_path (serving false {["a"]})) ∧
  od_get (get_components dir (serving false {["a"]})) "a" = Some (text_a "x" "1") ∧
  ∃ st', func_for_component dir "a" (serving false {["a"]}) =
           Ok (Label "x" (bool_decide ("Text" = "Nav"))) st' ∧
    get_component_refresh_queue dir st' =
      get_component_refresh_queue dir (serving false {["a"]}) ∖ {["a"]} ∧
    get_components dir st' = get_components dir (serving false {["a"]}) ∧
    func_for_component dir "a" st' =
      Ok (Label "x" (bool_decide ("Text" = "Nav"))) st'.
Proof.
  assert (is_Some (context_hs_user_app_db_path (serving false {["a"]}))) as Hctx
    by (by eexists).
  assert (od_get (get_components dir (serving false {["a"]})) "a"
          = Some (text_a "x" "1")) as Hrec by (by vm_compute).
  split; [exact Hctx|]. split; [exact Hrec|].
  exact (func_for_component_serves_label dir "a" (text_a "x" "1") "a" "x" "Text"
           (serving false {["a"]}) Hctx Hrec eq_refl eq_refl eq_refl eq_refl
           eq_refl).
Defined.

(** The sample run of X3: a label request for a key that is not stored. *)
Lemma func_for_component_dequeues_first_witness :
  is_Some (context_hs_user_app_db_path (serving false {["a"]})) ∧
  od_get (get_components dir (serving false {["a"]})) "zzz" = None ∧
  func_for_component dir "zzz" (serving false {["a"]}) =
    Raise KeyError (serving false {["a"]}).
Proof.
  assert (is_Some (context_hs_user_app_db_path (serving false {["a"]}))) as Hctx
    by (by eexists).
  assert (od_get (get_components dir (serving false {["a"]})) "zzz" = None)
    as Hnone by (by vm_compute).
  split; [exact Hctx|]. split; [exact Hnone|].
  exact (proj1 (func_for_component_dequeues_first dir "zzz"
                  (serving false {["a"]}) Hctx) Hnone).
Defined.

(** The sample run of X4: visitor 111 enters the value 2 for [a]. *)
Lemma value_changed_stores_value_witness :
  od_get (get_components dir (serving false ∅)) "a" = Some (text_a "x" "1") ∧
  truthy_opt (Some "2") || truthy_opt None = true ∧
  raises (func_for_component_value_changed dir "a" (Some "2") None
            (serving false ∅)) = None ∧
  (od_get (get_components dir
             (final_state (func_for_component_value_changed dir "a" (Some "2")
                             None (serving false ∅)))) "a"
     ≫= λ r, od_get r CURRENT_VALUE) = Some "2".
Proof.
  assert (od_get (get_components dir (serving false ∅)) "a"
          = Some (text_a "x" "1")) as Hrec by (by vm_compute).
  split; [exact Hrec|]. split; [reflexivity|].
  destruct (value_changed_stores_value dir "a" (Some "2") None (text_a "x" "1")
              (serving false ∅) Hrec eq_refl) as (st' & Heq & Hval & _).
  rewrite Heq. split; [reflexivity | exact Hval].
Defined.

(** The sample run of X6: the root page of visitor 111. *)
Lemma root_request_leaves_empty_queue_witness :
  route root_111 = GetRoot ∧
  evaluate_user_code_middleware dir HS echo_script root_111 (serving true {["a"]}) =
    Ok (MainPage one_a) (after_run_111 ∅) ∧
  get_component_refresh_queue dir (after_run_111 ∅) = ∅ ∧
  _queue_user_script_rerun (after_run_111 ∅) = false ∧
  MainPage one_a = MainPage (get_components dir (after_run_111 ∅)).
Proof.
  assert (evaluate_user_code_middleware dir HS echo_script root_111
            (serving true {["a"]}) = Ok (MainPage one_a) (after_run_111 ∅))
    as Hserve by (by vm_compute).
  split; [reflexivity|]. split; [exact Hserve|].
  exact (root_request_leaves_empty_queue dir HS echo_script root_111
           (serving true {["a"]}) (MainPage one_a) (after_run_111 ∅)
           eq_refl Hserve).
Defined.

(** The sample run of X7: the root page of visitor 222 after a run for
    visitor 111 empties the shelf of 111. *)
Lemma root_request_resets_last_run_shelf_witness :
  startswith "/" dir = true ∧ plain_path dir = true ∧
  plain_id "111" = true ∧ plain_id (hs_user_id root_222) = true ∧
  builtins_hs_user_app_db_path (after_run_111 {["a"]})
    = Some (hs_data_path dir "111") ∧
  route root_222 = GetRoot ∧
  "111" ≠ hs_user_id root_222 ∧
  components_at (hs_data_path dir "111")
    (final_state (evaluate_user_code_middleware dir HS echo_script root_222
                    (after_run_111 {["a"]}))) = [] ∧
  pending_at (hs_data_path dir "111")
    (final_state (evaluate_user_code_middleware dir HS echo_script root_222
                    (after_run_111 {["a"]}))) = ∅.
Proof.
  assert ("111" ≠ hs_user_id root_222) as Hne by (vm_compute; discriminate).
  split; [reflexivity|]. split; [reflexivity|]. split; [reflexivity|].
  split; [reflexivity|]. split; [reflexivity|]. split; [reflexivity|].
  split; [exact Hne|].
  exact (root_request_resets_last_run_shelf dir HS echo_script root_222 "111"
           (after_run_111 {["a"]}) eq_refl eq_refl eq_refl eq_refl eq_refl
           eq_refl Hne).
Defined.

(** The sample run of X8: a run for visitor 111 leaves the shelf of 222
    alone. *)
Lemma run_user_script_writes_identity_shelf_witness :
  startswith "/" dir = true ∧ plain_path dir = true ∧ plain_id "111" = true ∧
  context_hs_user_app_db_path (serving true ∅) = Some (hs_data_path dir "111") ∧
  plain_id "222" = true ∧ "222" ≠ "111" ∧
  components_at (hs_data_path dir "222")
    (final_state (run_user_script dir HS echo_script (serving true ∅))) =
    components_at (hs_data_path dir "222") (serving true ∅) ∧
  pending_at (hs_data_path dir "222")
    (final_state (run_user_script dir HS echo_script (serving true ∅))) =
    pending_at (hs_data_path dir "222") (serving true ∅).
Proof.
  assert ("222" ≠ "111") as Hne by discriminate.
  split; [reflexivity|]. split; [reflexivity|]. split; [reflexivity|].
  split; [reflexivity|]. split; [reflexivity|]. split; [exact Hne|].
  exact (run_user_script_writes_identity_shelf dir HS echo_script "111"
           (serving true ∅) eq_refl eq_refl eq_refl eq_refl "222" eq_refl Hne).
Defined.

(** The sample run of X9: visitor 222 polls after a run for visitor 111
    and is told the pending key of 111. *)
Lemma poll_answers_from_last_run_shelf_witness :
  builtins_hs_user_app_db_path (after_run_111 {["a"]}) = Some path_111 ∧
  truthy path_111 = true ∧
  _queue_user_script_rerun (after_run_111 {["a"]}) = false ∧
  route poll_222 = GetUpdate ∧
  response_of (evaluate_user_code_middleware dir HS echo_script poll_222
                 (after_run_111 {["a"]})) = Some (HXTrigger {["a"]}).
Proof.
  split; [reflexivity|]. split; [reflexivity|]. split; [reflexivity|].
  split; [reflexivity|].
  rewrite (poll_answers_from_last_run_shelf dir HS echo_script poll_222 path_111
             (after_run_111 {["a"]}) eq_refl eq_refl eq_refl eq_refl).
  by vm_compute.
Defined.

(** The sample run of X10: the two records change places. *)
Lemma reconcile_ignores_order_witness :
  NoDup (od_keys a_then_b) ∧ b_then_a ≡ₚ a_then_b ∧
  reconcile dir HS a_then_b b_then_a (serving false {[FULL_PAGE]}) =
  Ok tt (clear_component_refresh_queue dir FULL_PAGE (serving false {[FULL_PAGE]})).
Proof.
  assert (NoDup (od_keys a_then_b)) as Hnd
    by (apply (bool_decide_unpack (NoDup _)); by vm_compute).
  assert (b_then_a ≡ₚ a_then_b) as Hperm by apply perm_swap.
  split; [exact Hnd|]. split; [exact Hperm|].
  exact (reconcile_ignores_order dir HS a_then_b b_then_a
           (serving false {[FULL_PAGE]}) Hnd Hperm).
Defined.

(** The sample run of X11: the label of [a] changes; [a] alone is new in
    the queue. *)
Lemma reconcile_enqueues_only_changes_witness :
  "a" ∈ get_component_refresh_queue dir
          (final_state (reconcile dir HS one_a a_relabelled (serving false ∅))) ∧
  ("a" ∈ get_component_refresh_queue dir (serving false ∅) ∨
   ("a" = FULL_PAGE ∧
    keys_view (strip_html HS one_a) ≠ keys_view (strip_html HS a_relabelled)) ∨
   attr_differs (strip_html HS one_a) (strip_html HS a_relabelled) "a").
Proof.
  assert ("a" ∈ get_component_refresh_queue dir
            (final_state (reconcile dir HS one_a a_relabelled (serving false ∅))))
    as Hin by (by vm_compute).
  split; [exact Hin|].
  exact (proj1 (reconcile_enqueues_only_changes dir HS one_a a_relabelled
                  (serving false ∅)) "a" Hin).
Defined.

(** The sample run of X13: a rerun for visitor 111 with a script that
    declares [a] again, unchanged. *)
Lemma rerun_detects_new_keys_only_witness :
  startswith "/" dir = true ∧ plain_path dir = true ∧ plain_id "111" = true ∧
  context_hs_user_app_db_path (serving true {["a"]}) = Some (hs_data_path dir "111") ∧
  get_app_db_path dir (serving true {["a"]}) = hs_data_path dir "111" ∧
  script_run dir echo_script (serving true {["a"]}) = Ran [("a", text_a "x" "1")] false ∧
  get_components dir
    (final_state (run_user_script dir HS echo_script (serving true {["a"]}))) =
  foldl (λ cs d, od_set d.1 d.2 cs) (get_components dir (serving true {["a"]}))
        [("a", text_a "x" "1")].
Proof.
  assert (script_run dir echo_script (serving true {["a"]})
          = Ran [("a", text_a "x" "1")] false) as Hscript by (by vm_compute).
  split; [reflexivity|]. split; [reflexivity|]. split; [reflexivity|].
  split; [reflexivity|]. split; [reflexivity|]. split; [exact Hscript|].
  exact (proj1 (rerun_detects_new_keys_only dir HS echo_script "111"
                  [("a", text_a "x" "1")] (serving true {["a"]})
                  eq_refl eq_refl eq_refl eq_refl eq_refl Hscript)).
Defined.

(** The sample run of X14: the shelf of visitor 111 outlives a restart, and
    the first poll runs the script. *)
Lemma init_resets_common_shelf_only_witness :
  path_111 ≠ hs_data_path dir "main.db" ∧
  shelf_at path_111 (__init__ dir {[ path_111 := mkShelf (Some one_a) (Some {["a"]}) ]})
    = mkShelf (Some one_a) (Some {["a"]}) ∧
  route poll_222 ≠ GetRoot ∧
  before_call_next dir HS echo_script poll_222
    (__init__ dir {[ path_111 := mkShelf (Some one_a) (Some {["a"]}) ]}) =
  run_user_script dir HS echo_script
    (set_context (hs_data_path dir (hs_user_id poll_222))
       (__init__ dir {[ path_111 := mkShelf (Some one_a) (Some {["a"]}) ]})).
Proof.
  assert (path_111 ≠ hs_data_path dir "main.db") as Hne
    by (vm_compute; discriminate).
  assert (route poll_222 ≠ GetRoot) as Hroute by discriminate.
  destruct (init_resets_common_shelf_only dir HS echo_script
              {[ path_111 := mkShelf (Some one_a) (Some {["a"]}) ]})
    as (_ & _ & _ & Hother & Hfirst).
  split; [exact Hne|]. split.
  - rewrite (Hother path_111 Hne). by vm_compute.
  - split; [exact Hroute | exact (Hfirst poll_222 Hroute)].
Defined.

(** The sample run of X15: after the run of a script that raises, the next
    poll runs no script. *)
Lemma run_user_script_not_retried_witness :
  is_Some (context_hs_user_app_db_path (serving true {["a"]})) ∧
  raises (run_user_script dir HS failing_script (serving true {["a"]}))
    = Some ScriptError ∧
  _queue_user_script_rerun
    (final_state (run_user_script dir HS failing_script (serving true {["a"]})))
    = false.
Proof.
  assert (is_Some (context_hs_user_app_db_path (serving true {["a"]}))) as Hctx
    by (by eexists).
  split; [exact Hctx|]. split; [by vm_compute|].
  exact (proj1 (run_user_script_not_retried dir HS failing_script
                  (serving true {["a"]}) Hctx)).
Defined.
